(** * Import migration of apollo-angular's v2 schematic

    A shallow embedding of [migrateImports] and its helpers
    ([getIdentifiers], [collectIdentifiers], [redirectImport]) from
    [packages/apollo-angular/schematics/migrations/v2.ts], followed by the
    properties of the import rewrite.

    The TypeScript parser and the schematics [UpdateRecorder] are libraries
    the migration calls; they appear here as the data the migration reads
    (a parsed [SourceFile]) and as the log of calls it makes (a list of
    [Edit]s), with the recorder's effect on the text given by [applyEdits]. *)

From Stdlib Require Import String Ascii List Bool Arith Lia.
Import ListNotations.
Open Scope string_scope.

(** ** The parsed file, as the migration reads it *)

Module Ts.

Record Identifier := mkIdentifier { escapedText : string }.

(** [import {propertyName as name}]; [propertyName] is absent in
    [import {name}]. *)
Record ImportSpecifier := mkImportSpecifier {
  propertyName : option Identifier;
  name : Identifier
}.

Inductive NamedImportBindings :=
| NamedImports (elements : list ImportSpecifier)
| NamespaceImport (nsName : Identifier).

Inductive Node :=
| ImportSpecifierNode (named : ImportSpecifier)
| IdentifierNode (id : Identifier).

(** The children [forEachChild] visits, in order. *)
Definition forEachChild (namedBindings : NamedImportBindings) : list Node :=
  match namedBindings with
  | NamedImports elements => map ImportSpecifierNode elements
  | NamespaceImport nsName => [IdentifierNode nsName]
  end.

(** [clauseName] is the field [importClause.name], the default binding. *)
Record ImportClause := mkImportClause {
  clauseName : option Identifier;
  namedBindings : option NamedImportBindings
}.

(** A module specifier is an expression; [getText] is its source text,
    quotes included for a string literal. *)
Inductive Expression :=
| StringLiteral (getText : string)
| OtherExpression (getText : string).

Record ImportDeclaration := mkImportDeclaration {
  importClause : option ImportClause;
  moduleSpecifier : Expression
}.

Inductive StatementKind :=
| ImportDeclarationKind (decl : ImportDeclaration)
| OtherStatement.

Record Statement := mkStatement {
  getStart : nat;
  getWidth : nat;
  kind : StatementKind
}.

Record SourceFile := mkSourceFile {
  text : string;
  sourceStart : nat;          (* sourceFile.getStart() *)
  statements : list Statement
}.

(** [statement.importClause] on a statement typed [any]: [undefined]
    unless the statement is an import declaration that has a clause. *)
Definition importClauseOf (statement : Statement) : option ImportClause :=
  match kind statement with
  | ImportDeclarationKind decl => importClause decl
  | OtherStatement => None
  end.

End Ts.

(** ** Exceptions *)

(** Reading a property of [undefined] throws a [TypeError], which aborts the
    scan of the file. *)
Inductive result (A : Type) : Type :=
| Ok (a : A)
| TypeError.
Arguments Ok {A} a.
Arguments TypeError {A}.

Definition bind {A B : Type} (r : result A) (k : A -> result B) : result B :=
  match r with
  | Ok a => k a
  | TypeError => TypeError
  end.

Notation "x <- r ;; k" := (bind r (fun x => k))
  (at level 61, r at next level, right associativity).

(** ** The symbol map *)

Record ImportedSymbol := mkSymbol {
  name : string;
  alias : option string
}.

(** [importsMap]: a JS object used as a map from destination module to the
    array of its symbols. [Object.keys] lists string keys in insertion
    order, so the map is an association list kept in that order. *)
Definition ImportsMap := list (string * list ImportedSymbol).

Fixpoint lookup (importsMap : ImportsMap) (key : string)
  : option (list ImportedSymbol) :=
  match importsMap with
  | [] => None
  | (k, v) :: rest => if k =? key then Some v else lookup rest key
  end.

(** [importsMap[key] = v]: in place when the key exists, else a new last key. *)
Fixpoint assign (importsMap : ImportsMap) (key : string)
  (v : list ImportedSymbol) : ImportsMap :=
  match importsMap with
  | [] => [(key, v)]
  | (k, v') :: rest =>
      if k =? key then (k, v) :: rest else (k, v') :: assign rest key v
  end.

Definition bucket (importsMap : ImportsMap) (key : string)
  : list ImportedSymbol :=
  match lookup importsMap key with
  | Some v => v
  | None => []
  end.

(** [if (!importsMap[key]) importsMap[key] = [];] *)
Definition ensure (importsMap : ImportsMap) (key : string) : ImportsMap :=
  match lookup importsMap key with
  | Some _ => importsMap
  | None => assign importsMap key []
  end.

(** [importsMap[key].push(sym)], after [ensure]. *)
Definition push (importsMap : ImportsMap) (key : string)
  (sym : ImportedSymbol) : ImportsMap :=
  assign importsMap key (bucket importsMap key ++ [sym])%list.

Definition keys (importsMap : ImportsMap) : list string :=
  map fst importsMap.

(** ** The recorder *)

Inductive Edit :=
| Remove (index length : nat)
| InsertLeft (index : nat) (content : string).

Definition Recorder := list Edit.

Definition State : Type := ImportsMap * Recorder.

(** ** The migration *)

Definition getIdentifiers {S : Type}
  (namedBindings : Ts.NamedImportBindings)
  (onIdentifier : ImportedSymbol -> S -> S) (s : S) : S :=
  fold_left
    (fun acc child =>
       match child with
       | Ts.ImportSpecifierNode named =>
           let name :=
             match Ts.propertyName named with
             | Some propertyName => Ts.escapedText propertyName
             | None => Ts.escapedText (Ts.name named)
             end in
           onIdentifier
             {| name := name;
                alias := if name =? Ts.escapedText (Ts.name named)
                         then None else Some name |}
             acc
       | Ts.IdentifierNode _ => acc
       end)
    (Ts.forEachChild namedBindings) s.

Definition collectIdentifiers (packageName : string)
  (namedBindings : Ts.NamedImportBindings) (importsMap : ImportsMap)
  : ImportsMap :=
  getIdentifiers namedBindings
    (fun sym importsMap => push (ensure importsMap packageName) packageName sym)
    importsMap.

Definition redirectImport (source target modulePath : string)
  (statement : Ts.Statement) (s : State) : result State :=
  let '(importsMap, recorder) := s in
  if modulePath =? source then
    match Ts.importClauseOf statement with
    | None => TypeError
    | Some clause =>
        let importsMap' :=
          match Ts.namedBindings clause with
          | Some namedBindings =>
              collectIdentifiers target namedBindings importsMap
          | None => importsMap
          end in
        Ok (importsMap',
            (recorder
               ++ [Remove (Ts.getStart statement) (Ts.getWidth statement)])%list)
    end
  else Ok s.

(** The fifteen [redirectImport] calls, in the order they are made. *)
Definition redirects : list (string * string) :=
  [ ("apollo-cache-inmemory", "@apollo/client/core");
    ("apollo-client", "@apollo/client/core");
    ("apollo-link", "@apollo/client/core");
    ("apollo-cache", "@apollo/client/core");
    ("apollo-angular-link-http", "apollo-angular/http");
    ("apollo-angular-link-http-batch", "apollo-angular/http");
    ("apollo-utilities", "@apollo/client/utilities");
    ("apollo-link-http", "@apollo/client/link/http");
    ("apollo-link-batch-http", "@apollo/client/link/batch-http");
    ("apollo-link-context", "@apollo/client/link/context");
    ("apollo-link-error", "@apollo/client/link/error");
    ("apollo-link-schema", "@apollo/client/link/schema");
    ("apollo-link-ws", "@apollo/client/link/ws");
    ("apollo-angular", "apollo-angular");
    ("apollo-angular-link-headers", "apollo-angular/headers") ].

Definition redirectAll (rules : list (string * string)) (modulePath : string)
  (statement : Ts.Statement) (s : State) : result State :=
  fold_left
    (fun acc rule =>
       s' <- acc ;; redirectImport (fst rule) (snd rule) modulePath statement s')
    rules (Ok s).

(** The [graphql-tag] branch at the end of the loop body. *)
Definition redirectGraphqlTag (modulePath : string)
  (statement : Ts.Statement) (s : State) : result State :=
  let '(importsMap, recorder) := s in
  if modulePath =? "graphql-tag" then
    let importsMap := ensure importsMap "apollo-angular" in
    match Ts.importClauseOf statement with
    | None => TypeError
    | Some clause =>
        match Ts.clauseName clause with
        | None => TypeError
        | Some id =>
            let alias := Ts.escapedText id in
            Ok (push importsMap "apollo-angular"
                  {| name := "gql";
                     alias := if alias =? "gql" then None else Some alias |},
                (recorder
                   ++ [Remove (Ts.getStart statement) (Ts.getWidth statement)])%list)
        end
    end
  else Ok s.

(** [nodeText.substr(1, nodeText.length - 2)] *)
Definition stripQuotes (nodeText : string) : string :=
  substring 1 (String.length nodeText - 2) nodeText.

(** The body of [sourceFile.statements.forEach]. *)
Definition visitStatement (statement : Ts.Statement) (s : State)
  : result State :=
  match Ts.kind statement with
  | Ts.ImportDeclarationKind decl =>
      match Ts.moduleSpecifier decl with
      | Ts.StringLiteral nodeText =>
          let modulePath := stripQuotes nodeText in
          s' <- redirectAll redirects modulePath statement s ;;
          redirectGraphqlTag modulePath statement s'
      | Ts.OtherExpression _ => Ok s
      end
  | Ts.OtherStatement => Ok s
  end.

Definition scan (statements : list Ts.Statement) (s : State) : result State :=
  fold_left (fun acc statement => s' <- acc ;; visitStatement statement s')
    statements (Ok s).

(** [im.alias ? ... : ...]: [undefined] and the empty string are falsy. *)
Definition truthy (alias : option string) : bool :=
  match alias with
  | Some a => negb (a =? "")
  | None => false
  end.

Definition renderSymbol (im : ImportedSymbol) : string :=
  if truthy (alias im)
  then name im ++ " as " ++ match alias im with Some a => a | None => "" end
  else name im.

Fixpoint join (sep : string) (parts : list string) : string :=
  match parts with
  | [] => ""
  | [p] => p
  | p :: rest => p ++ sep ++ join sep rest
  end.

Definition newline : string := String (ascii_of_nat 10) "".

Definition importText (importSource : string) (syms : list ImportedSymbol)
  : string :=
  "import {" ++ join ", " (map renderSymbol syms) ++ "} from '"
    ++ importSource ++ "';" ++ newline.

Definition insertImports (sourceStart : nat) (importsMap : ImportsMap)
  (recorder : Recorder) : Recorder :=
  fold_left
    (fun recorder importSource =>
       (recorder
          ++ [InsertLeft sourceStart
                (importText importSource (bucket importsMap importSource))])%list)
    (keys importsMap) recorder.

Record FileResult := mkFileResult {
  importsMap : ImportsMap;
  recorder : Recorder;
  committed : bool              (* was tree.commitUpdate(recorder) called *)
}.

(** The callback of [tree.visit] on a file that passed the path test. *)
Definition migrateFile (sourceFile : Ts.SourceFile) : result FileResult :=
  s <- scan (Ts.statements sourceFile) ([], []) ;;
  let '(importsMap, recorder) := s in
  Ok {| importsMap := importsMap;
        recorder := insertImports (Ts.sourceStart sourceFile) importsMap recorder;
        committed := negb (List.length (keys importsMap) =? 0)%nat |}.

(** ** The recorder's effect on the text

    Offsets refer to the original text. A removal drops the characters of
    its span; an insertion lands before the character at its offset, and
    insertions at one offset keep the order of the calls. This is the
    recorder of a text that does not begin with a byte order mark; for a
    text that does, the library's recorder moves every offset by one. *)

Definition removedAt (recorder : Recorder) (i : nat) : bool :=
  existsb
    (fun e => match e with
              | Remove index len => (index <=? i)%nat && (i <? index + len)%nat
              | InsertLeft _ _ => false
              end)
    recorder.

Definition insertedAt (recorder : Recorder) (i : nat) : string :=
  fold_right
    (fun e acc => match e with
                  | InsertLeft index content =>
                      if (index =? i)%nat then content ++ acc else acc
                  | Remove _ _ => acc
                  end)
    "" recorder.

Fixpoint applyFrom (recorder : Recorder) (i : nat) (text : string) : string :=
  insertedAt recorder i ++
  match text with
  | EmptyString => ""
  | String c rest =>
      (if removedAt recorder i then "" else String c "")
        ++ applyFrom recorder (S i) rest
  end.

Definition applyEdits (recorder : Recorder) (text : string) : string :=
  applyFrom recorder 0 text.

(** The file's text in the tree after the visit: the edits take effect only
    when the update was committed. *)
Definition contentAfter (sourceFile : Ts.SourceFile) (r : FileResult) : string :=
  if committed r then applyEdits (recorder r) (Ts.text sourceFile)
  else Ts.text sourceFile.

(** [path.includes('node_modules') || !path.endsWith('.ts')] *)
Definition includes (needle path : string) : bool :=
  match index 0 needle path with
  | Some _ => true
  | None => false
  end.

Definition endsWith (suffix path : string) : bool :=
  (String.length suffix <=? String.length path)%nat
  && (substring (String.length path - String.length suffix)
        (String.length suffix) path =? suffix).

Definition skipped (path : string) : bool :=
  includes "node_modules" path || negb (endsWith ".ts" path).

(** One step of [tree.visit]: the new text of the file at [path]. *)
Definition visit (path : string) (sourceFile : Ts.SourceFile) : result string :=
  if skipped path then Ok (Ts.text sourceFile)
  else r <- migrateFile sourceFile ;; Ok (contentAfter sourceFile r).

(** ** Building example files *)

Definition ident (s : string) : Ts.Identifier := Ts.mkIdentifier s.

Definition spec (exported local : string) : Ts.ImportSpecifier :=
  if exported =? local
  then Ts.mkImportSpecifier None (ident local)
  else Ts.mkImportSpecifier (Some (ident exported)) (ident local).

Definition importDecl (start width : nat) (clause : option Ts.ImportClause)
  (quoted : string) : Ts.Statement :=
  Ts.mkStatement start width
    (Ts.ImportDeclarationKind
       (Ts.mkImportDeclaration clause (Ts.StringLiteral quoted))).

Definition namedClause (specs : list Ts.ImportSpecifier) : option Ts.ImportClause :=
  Some (Ts.mkImportClause None (Some (Ts.NamedImports specs))).

Definition defaultClause (local : string) : option Ts.ImportClause :=
  Some (Ts.mkImportClause (Some (ident local)) None).

(** ** Which statements the rules match *)

(** The bare specifier of an import declaration with a string-literal
    module specifier; [None] for any other statement. *)
Definition modulePathOf (statement : Ts.Statement) : option string :=
  match Ts.kind statement with
  | Ts.ImportDeclarationKind decl =>
      match Ts.moduleSpecifier decl with
      | Ts.StringLiteral nodeText => Some (stripQuotes nodeText)
      | Ts.OtherExpression _ => None
      end
  | Ts.OtherStatement => None
  end.

Definition findRule (rules : list (string * string)) (modulePath : string)
  : option (string * string) :=
  find (fun rule => modulePath =? fst rule) rules.

Definition targetOf (modulePath : string) : option string :=
  option_map snd (findRule redirects modulePath).

Definition isSource (modulePath : string) : bool :=
  match targetOf modulePath with
  | Some _ => true
  | None => modulePath =? "graphql-tag"
  end.

Definition matches (statement : Ts.Statement) : bool :=
  match modulePathOf statement with
  | Some modulePath => isSource modulePath
  | None => false
  end.

Definition span (statement : Ts.Statement) : nat * nat :=
  (Ts.getStart statement, Ts.getWidth statement).

Definition removals (recorder : Recorder) : list (nat * nat) :=
  flat_map
    (fun e => match e with
              | Remove index len => [(index, len)]
              | InsertLeft _ _ => []
              end)
    recorder.

(** The symbol [getIdentifiers] reports for one import specifier. *)
Definition specifierSymbol (named : Ts.ImportSpecifier) : ImportedSymbol :=
  let name :=
    match Ts.propertyName named with
    | Some propertyName => Ts.escapedText propertyName
    | None => Ts.escapedText (Ts.name named)
    end in
  {| name := name;
     alias := if name =? Ts.escapedText (Ts.name named)
              then None else Some name |}.

Definition childSymbols (child : Ts.Node) : list ImportedSymbol :=
  match child with
  | Ts.ImportSpecifierNode named => [specifierSymbol named]
  | Ts.IdentifierNode _ => []
  end.

(** The symbols of a named-bindings node, in the order reported. *)
Definition symbolsOf (namedBindings : Ts.NamedImportBindings)
  : list ImportedSymbol :=
  getIdentifiers namedBindings (fun sym acc => acc ++ [sym])%list [].

Definition gqlSymbol (local : string) : ImportedSymbol :=
  {| name := "gql"; alias := if local =? "gql" then None else Some local |}.

(** What one statement adds to the bucket of [target]. *)
Definition contribution (target : string) (statement : Ts.Statement)
  : list ImportedSymbol :=
  match modulePathOf statement with
  | None => []
  | Some modulePath =>
      match targetOf modulePath with
      | Some t =>
          if t =? target then
            match Ts.importClauseOf statement with
            | Some clause =>
                match Ts.namedBindings clause with
                | Some namedBindings => symbolsOf namedBindings
                | None => []
                end
            | None => []
            end
          else []
      | None =>
          if (modulePath =? "graphql-tag") && ("apollo-angular" =? target) then
            match Ts.importClauseOf statement with
            | Some clause =>
                match Ts.clauseName clause with
                | Some id => [gqlSymbol (Ts.escapedText id)]
                | None => []
                end
            | None => []
            end
          else []
      end
  end.

(** One loop body, by cases on the rule that applies. *)
Definition step (statement : Ts.Statement) (s : State) : result State :=
  match modulePathOf statement with
  | None => Ok s
  | Some modulePath =>
      match targetOf modulePath with
      | Some target => redirectImport modulePath target modulePath statement s
      | None => redirectGraphqlTag modulePath statement s
      end
  end.

Definition removeOf (statement : Ts.Statement) : Edit :=
  Remove (Ts.getStart statement) (Ts.getWidth statement).

(** ** Example files

    Each file is one or two import lines, every line followed by a line
    break; a statement spans its line without the line break. *)

Definition oneLine (line : string) (clause : option Ts.ImportClause)
  (quoted : string) : Ts.SourceFile :=
  Ts.mkSourceFile (line ++ newline) 0
    [importDecl 0 (String.length line) clause quoted].

Definition twoLines (line1 : string) (clause1 : option Ts.ImportClause)
  (quoted1 : string) (line2 : string) (clause2 : option Ts.ImportClause)
  (quoted2 : string) : Ts.SourceFile :=
  Ts.mkSourceFile (line1 ++ newline ++ line2 ++ newline) 0
    [importDecl 0 (String.length line1) clause1 quoted1;
     importDecl (S (String.length line1)) (String.length line2) clause2 quoted2].

(** [import {ApolloClient as Client} from 'apollo-client';] *)
Definition aliasFile : Ts.SourceFile :=
  oneLine "import {ApolloClient as Client} from 'apollo-client';"
    (namedClause [spec "ApolloClient" "Client"]) "'apollo-client'".


(** [import {} from 'apollo-client';] names no symbol. *)
Definition emptyNamedFile : Ts.SourceFile :=
  oneLine "import {} from 'apollo-client';" (namedClause []) "'apollo-client'".

(** [import 'apollo-client';] has no import clause. *)
Definition sideEffectFile : Ts.SourceFile :=
  oneLine "import 'apollo-client';" None "'apollo-client'".

(** [import ApolloClient from "apollo-client";] *)
Definition defaultOnlyFile : Ts.SourceFile :=
  oneLine "import ApolloClient from 'apollo-client';"
    (defaultClause "ApolloClient") "'apollo-client'".

Definition defaultOnlyWithOtherFile : Ts.SourceFile :=
  twoLines
    "import ApolloClient from 'apollo-client';"
    (defaultClause "ApolloClient") "'apollo-client'"
    "import {ApolloLink} from 'apollo-link';"
    (namedClause [spec "ApolloLink" "ApolloLink"]) "'apollo-link'".

(** [import gql from 'graphql-tag';] and [import myGql from 'graphql-tag';] *)
Definition gqlFile : Ts.SourceFile :=
  oneLine "import gql from 'graphql-tag';" (defaultClause "gql") "'graphql-tag'".

Definition myGqlFile : Ts.SourceFile :=
  oneLine "import myGql from 'graphql-tag';" (defaultClause "myGql")
    "'graphql-tag'".

(** [import {gql} from 'graphql-tag';] has no default binding. *)
Definition namedGqlFile : Ts.SourceFile :=
  oneLine "import {gql} from 'graphql-tag';" (namedClause [spec "gql" "gql"])
    "'graphql-tag'".

(** The file the first run writes for [gqlFile], parsed again: the emitted
    line, its line break, and the line break the removed statement left. *)
Definition gqlFileRewritten : Ts.SourceFile :=
  Ts.mkSourceFile
    ("import {gql} from 'apollo-angular';" ++ newline ++ newline) 0
    [importDecl 0 (String.length "import {gql} from 'apollo-angular';")
       (namedClause [spec "gql" "gql"]) "'apollo-angular'"].

(** [import {InMemoryCache} from 'apollo-cache-inmemory';] and the file the
    first run writes for it, parsed again. *)
Definition cacheFile : Ts.SourceFile :=
  oneLine "import {InMemoryCache} from 'apollo-cache-inmemory';"
    (namedClause [spec "InMemoryCache" "InMemoryCache"])
    "'apollo-cache-inmemory'".

Definition cacheFileRewritten : Ts.SourceFile :=
  Ts.mkSourceFile
    ("import {InMemoryCache} from '@apollo/client/core';" ++ newline ++ newline)
    0
    [importDecl 0
       (String.length "import {InMemoryCache} from '@apollo/client/core';")
       (namedClause [spec "InMemoryCache" "InMemoryCache"])
       "'@apollo/client/core'"].

(** An import whose module specifier is not a string literal. *)
Definition computedSpecifier (start width : nat)
  (clause : option Ts.ImportClause) (specifierText : string) : Ts.Statement :=
  Ts.mkStatement start width
    (Ts.ImportDeclarationKind
       (Ts.mkImportDeclaration clause (Ts.OtherExpression specifierText))).


Definition span_eq_dec (a b : nat * nat) : {a = b} + {a <> b}.
Proof.
  decide equality; apply Nat.eq_dec.
Defined.

Definition nothingDone : FileResult :=
  {| importsMap := []; recorder := []; committed := false |}.

(** An import no rule matches, followed by a statement that is no import. *)
Definition unrelatedFile : Ts.SourceFile :=
  Ts.mkSourceFile
    ("import {Injectable} from '@angular/core';" ++ newline
       ++ "export class Service {}" ++ newline) 0
    [importDecl 0 41 (namedClause [spec "Injectable" "Injectable"])
       "'@angular/core'";
     Ts.mkStatement 42 23 Ts.OtherStatement].

Definition defaultOnlyWithOtherResult : FileResult :=
  {| importsMap :=
       [("@apollo/client/core", [{| name := "ApolloLink"; alias := None |}])];
     recorder :=
       [Remove 0 41; Remove 42 39;
        InsertLeft 0
          ("import {ApolloLink} from '@apollo/client/core';" ++ newline)];
     committed := true |}.

Definition cacheResult : FileResult :=
  {| importsMap :=
       [("@apollo/client/core", [{| name := "InMemoryCache"; alias := None |}])];
     recorder :=
       [Remove 0 52;
        InsertLeft 0
          ("import {InMemoryCache} from '@apollo/client/core';" ++ newline)];
     committed := true |}.

(** ** JSON files: [tsconfig.json] and [package.json]

    A parsed JSON object is a JS object: string keys, properties kept in
    insertion order. [getJsonFile] (of [../utils]) and [dependenciesMap]
    (of [../install/index]) are imported by the migration and enter it here
    as arguments. *)

Module Js.

Definition Obj (V : Type) : Type := list (string * V).

(** [o[key]]: [None] stands for [undefined]. *)
Fixpoint getProp {V : Type} (o : Obj V) (key : string) : option V :=
  match o with
  | [] => None
  | (k, v) :: rest => if k =? key then Some v else getProp rest key
  end.

(** [o[key] = v]: in place when the key exists, else a new last key. *)
Fixpoint setProp {V : Type} (o : Obj V) (key : string) (v : V) : Obj V :=
  match o with
  | [] => [(key, v)]
  | (k, v') :: rest =>
      if k =? key then (k, v) :: rest else (k, v') :: setProp rest key v
  end.

(** [delete o[key]] *)
Definition deleteProp {V : Type} (o : Obj V) (key : string) : Obj V :=
  filter (fun kv => negb (fst kv =? key)) o.

#[warnings="-register-all"] Inductive Json :=
| JNull
| JBool (b : bool)
| JNumber (literal : string)
| JString (s : string)
| JArray (items : list Json)
| JObject (props : list (string * Json)).

End Js.

(** *** [migrateTsConfig] *)

(** A truthy value that is no object. Assigning a property to it throws a
    [TypeError]: module code is strict. *)
Inductive TruthyPrimitive :=
| TrueValue
| NonZeroNumber (literal : string)
| NonEmptyString (first : ascii) (rest : string).

(** The value of the property [compilerOptions], by what the code does with
    it: a falsy value (absent, [null], [false], [0], the empty string) is
    not used; an object gets the new property; an array gets it too, but
    [JSON.stringify] writes only the items of an array; on any other truthy
    value the assignment throws. *)
Inductive CompilerOptionsValue :=
| FalsyValue
| ObjectValue (options : Js.Obj Js.Json)
| ArrayValue (items : list Js.Json)
| PrimitiveValue (value : TruthyPrimitive).

(** A tsconfig file as [migrateTsConfig] uses it: an object with its
    [compilerOptions]; the other properties are carried along. *)
Record TsConfig := mkTsConfig {
  compilerOptions : CompilerOptionsValue;
  otherProps : Js.Obj Js.Json
}.

(** [tree.overwrite(path, JSON.stringify(content, null, 2))] *)
Inductive Overwrite :=
| overwrite (path : string) (content : TsConfig).

(** [compilerOptions.allowSyntheticDefaultImports = true], seen through the
    object that holds [compilerOptions]. *)
Definition allowSyntheticDefaultImports (config : TsConfig)
  (options : Js.Obj Js.Json) : TsConfig :=
  {| compilerOptions :=
       ObjectValue
         (Js.setProp options "allowSyntheticDefaultImports" (Js.JBool true));
     otherProps := otherProps config |}.

(** [if (compilerOptions) { compilerOptions.allowSyntheticDefaultImports =
    true; tree.overwrite(path, JSON.stringify(config, null, 2)); } else
    { otherwise }]; [None] is the [TypeError] of the assignment. *)
Definition ifCompilerOptions (path : string) (config : TsConfig)
  (otherwise : option (list Overwrite)) : option (list Overwrite) :=
  match compilerOptions config with
  | FalsyValue => otherwise
  | ObjectValue options =>
      Some [overwrite path (allowSyntheticDefaultImports config options)]
  | ArrayValue _ => Some [overwrite path config]
  | PrimitiveValue _ => None
  end.

(** [getJsonFile path] is [None] when the call throws; an exception leaves
    [migrateTsConfig] as it came ([None]). The result lists the calls of
    [tree.overwrite]. *)
Definition migrateTsConfig (getJsonFile : string -> option TsConfig)
  : option (list Overwrite) :=
  let tsconfigPath := "tsconfig.json" in
  match getJsonFile tsconfigPath with
  | None => None
  | Some tsconfig =>
      ifCompilerOptions tsconfigPath tsconfig
        (let tsconfigBasePath := "tsconfig.base.json" in
         match getJsonFile tsconfigBasePath with
         | None => None
         | Some tsconfigBase =>
             ifCompilerOptions tsconfigBasePath tsconfigBase (Some [])
         end)
  end.

(** The tree after the overwrites, read through [getJsonFile]: a file that
    was overwritten parses to the object that was written. *)
Definition afterOverwrites (getJsonFile : string -> option TsConfig)
  (writes : list Overwrite) : string -> option TsConfig :=
  fold_left
    (fun read w =>
       match w with
       | overwrite path content =>
           fun p => if p =? path then Some content else read p
       end)
    writes getJsonFile.

(** *** [migrateDependencies] *)

(** The two properties of [package.json] the migration reads and writes;
    versions are strings. [None] is an absent property. *)
Record PackageJson := mkPackageJson {
  dependencies : option (Js.Obj string);
  devDependencies : option (Js.Obj string)
}.

Definition packagesToRemove : list string :=
  [ "graphql-tag";
    "apollo-client";
    "apollo-cache";
    "apollo-cache-inmemory";
    "apollo-utilities";
    "apollo-link";
    "apollo-link-http";
    "apollo-link-batch-http";
    "apollo-link-context";
    "apollo-link-error";
    "apollo-link-schema";
    "apollo-link-ws";
    "apollo-angular-link-http";
    "apollo-angular-link-http-batch";
    "apollo-angular-link-headers" ].

(** The [for ... in dependenciesMap] loop. *)
Definition addDependencies (dependenciesMap : Js.Obj string)
  (deps : Js.Obj string) : Js.Obj string :=
  fold_left (fun deps entry => Js.setProp deps (fst entry) (snd entry))
    dependenciesMap deps.

(** [packageJson.devDependencies?.[packageName]] *)
Definition devVersion (devDeps : option (Js.Obj string)) (packageName : string)
  : option string :=
  match devDeps with
  | Some d => Js.getProp d packageName
  | None => None
  end.

(** The state of the removal loop: both records and [removedPackages]. *)
Definition RemovalState : Type :=
  Js.Obj string * option (Js.Obj string) * list string.

(** The callback of [packagesToRemove.forEach]. *)
Definition removePackage (s : RemovalState) (packageName : string)
  : RemovalState :=
  let '(deps, devDeps, removedPackages) := s in
  let inDeps := truthy (Js.getProp deps packageName) in
  let inDevDeps := truthy (devVersion devDeps packageName) in
  (if inDeps then Js.deleteProp deps packageName else deps,
   if inDevDeps
   then option_map (fun d => Js.deleteProp d packageName) devDeps
   else devDeps,
   if inDeps || inDevDeps
   then (removedPackages ++ [packageName])%list
   else removedPackages).

Definition removePackages (packages : list string) (s : RemovalState)
  : RemovalState :=
  fold_left removePackage packages s.

Record DependenciesResult := mkDependenciesResult {
  written : PackageJson;    (* tree.overwrite('package.json', ...) *)
  info : list string        (* context.logger.info, in order *)
}.

(** [migrateDependencies], from the parsed [package.json] on; the file is
    overwritten and the install task scheduled in every run. *)
Definition migrateDependencies (dependenciesMap : Js.Obj string)
  (packageJson : PackageJson) : DependenciesResult :=
  let deps :=
    match dependencies packageJson with
    | Some d => d
    | None => []
    end in
  let deps := addDependencies dependenciesMap deps in
  let '(deps, devDeps, removedPackages) :=
    removePackages packagesToRemove
      (deps, devDependencies packageJson, []) in
  {| written := {| dependencies := Some deps; devDependencies := devDeps |};
     info :=
       map (fun packageName => "Removed " ++ packageName ++ " dependency")
         removedPackages |}.

(** ** Further notions used in the properties *)

Definition insertions (recorder : Recorder) : list (nat * string) :=
  flat_map
    (fun e => match e with
              | InsertLeft index content => [(index, content)]
              | Remove _ _ => []
              end)
    recorder.

(** The binding of a key that a later binding of the same key overrides. *)
Fixpoint lastBinding (entries : Js.Obj string) (key : string) : option string :=
  match entries with
  | [] => None
  | (k, v) :: rest =>
      match lastBinding rest key with
      | Some v' => Some v'
      | None => if k =? key then Some v else None
      end
  end.

Definition isRemoved (packageName : string) : bool :=
  existsb (String.eqb packageName) packagesToRemove.

(** [ks] with [k] as a new last element unless it is there already. *)
Definition extend (ks : list string) (k : string) : list string :=
  if in_dec string_dec k ks then ks else (ks ++ [k])%list.

(** The elements of a list in the order of their first occurrence. *)
Definition firstOccurrences (l : list string) : list string :=
  fold_left extend l [].

(** The destination a statement contributes a symbol to, if any. *)
Definition destination (statement : Ts.Statement) : list string :=
  match modulePathOf statement with
  | None => []
  | Some modulePath =>
      let target :=
        match targetOf modulePath with
        | Some target => target
        | None => "apollo-angular"
        end in
      match contribution target statement with
      | [] => []
      | _ :: _ => [target]
      end
  end.

(** [packageJson.dependencies?.[packageName]] *)
Definition depVersion (packageJson : PackageJson) (packageName : string)
  : option string :=
  match dependencies packageJson with
  | Some d => Js.getProp d packageName
  | None => None
  end.

(** The version of a package once [dependenciesMap] has been merged in. *)
Definition mergedVersion (dependenciesMap : Js.Obj string)
  (packageJson : PackageJson) (packageName : string) : option string :=
  match lastBinding dependenciesMap packageName with
  | Some v => Some v
  | None => depVersion packageJson packageName
  end.

Definition removedMessage (packageName : string) : string :=
  "Removed " ++ packageName ++ " dependency".

(** An example of a dependency table and of a [package.json]. *)
Definition exampleDependenciesMap : Js.Obj string :=
  [("apollo-angular", "^2.0.0"); ("@apollo/client", "^3.0.0");
   ("graphql", "^15.0.0")].

Definition examplePackageJson : PackageJson :=
  {| dependencies :=
       Some [("@angular/core", "^10.0.0"); ("apollo-client", "^2.6.0");
             ("graphql-tag", "^2.10.0"); ("graphql", "^14.0.0")];
     devDependencies :=
       Some [("apollo-link", "^1.2.0"); ("typescript", "~4.0.0")] |}.

(** ** Names as written and as the parser stores them

    The parser stores an identifier's text escaped: a name that begins with
    two underscores gets a third one in [escapedText]. *)
Definition escapeLeadingUnderscores (identifier : string) : string :=
  if prefix "__" identifier then "_" ++ identifier else identifier.

(** The identifier node of a name as written in the source. *)
Definition identifierNamed (written : string) : Ts.Identifier :=
  Ts.mkIdentifier (escapeLeadingUnderscores written).

(** The node of the import specifier written [name] or
    [propertyName as name]. *)
Definition writtenSpecifier (written : option string * string)
  : Ts.ImportSpecifier :=
  Ts.mkImportSpecifier (option_map identifierNamed (fst written))
    (identifierNamed (snd written)).

(** The exported name of a specifier as written. *)
Definition writtenExportedName (written : option string * string) : string :=
  match fst written with
  | Some propertyName => propertyName
  | None => snd written
  end.

(** [import __gql from 'graphql-tag';] *)
Definition underscoreGqlFile : Ts.SourceFile :=
  oneLine "import __gql from 'graphql-tag';"
    (Some (Ts.mkImportClause (Some (identifierNamed "__gql")) None))
    "'graphql-tag'".

(** ** The file of a committed run, parsed again

    The parser is not part of the migration. The second run reads the file
    the first run wrote; its parse is built here from the first file's: the
    emitted import statements, each spanning its line at the head of the new
    text, then the statements no rule matched, each at the offset its
    characters have in the new text. *)

(** An emitted import statement without its line break. *)
Definition importLine (importSource : string) (syms : list ImportedSymbol)
  : string :=
  "import {" ++ join ", " (map renderSymbol syms) ++ "} from '"
    ++ importSource ++ "';".

(** The specifier node of a symbol as [renderSymbol] writes it. *)
Definition specifierOfSymbol (im : ImportedSymbol) : Ts.ImportSpecifier :=
  writtenSpecifier
    (if truthy (alias im)
     then (Some (name im), match alias im with Some a => a | None => "" end)
     else (None, name im)).

Definition emittedStatement (start : nat) (importSource : string)
  (syms : list ImportedSymbol) : Ts.Statement :=
  importDecl start (String.length (importLine importSource syms))
    (namedClause (map specifierOfSymbol syms))
    ("'" ++ importSource ++ "'").

Fixpoint emittedStatements (start : nat) (m : ImportsMap)
  (importSources : list string) : list Ts.Statement :=
  match importSources with
  | [] => []
  | importSource :: rest =>
      emittedStatement start importSource (bucket m importSource)
        :: emittedStatements
             (start + String.length (importText importSource
                                       (bucket m importSource)))
             m rest
  end.

Definition insertedText (r : FileResult) : string :=
  String.concat ""
    (map (fun importSource =>
            importText importSource (bucket (importsMap r) importSource))
       (keys (importsMap r))).

Definition matchedRemovals (sourceFile : Ts.SourceFile) : Recorder :=
  map removeOf (filter matches (Ts.statements sourceFile)).

(** A statement no rule matched, at its offset in the new text: behind the
    inserted text and the characters kept of what preceded it. *)
Definition keptStatement (sourceFile : Ts.SourceFile) (r : FileResult)
  (statement : Ts.Statement) : Ts.Statement :=
  Ts.mkStatement
    (String.length (insertedText r)
     + String.length
         (applyEdits (matchedRemovals sourceFile)
            (substring 0 (Ts.getStart statement) (Ts.text sourceFile))))
    (Ts.getWidth statement) (Ts.kind statement).

Definition rewrittenFile (sourceFile : Ts.SourceFile) (r : FileResult)
  : Ts.SourceFile :=
  Ts.mkSourceFile (contentAfter sourceFile r) 0
    (emittedStatements 0 (importsMap r) (keys (importsMap r))
       ++ map (keptStatement sourceFile r)
            (filter (fun statement => negb (matches statement))
               (Ts.statements sourceFile)))%list.




Definition gqlResult : FileResult :=
  {| importsMap := [("apollo-angular", [{| name := "gql"; alias := None |}])];
     recorder :=
       [Remove 0 30;
        InsertLeft 0 ("import {gql} from 'apollo-angular';" ++ newline)];
     committed := true |}.

(** * Properties *)

(** ** The symbol map *)

Lemma lookup_assign_same (importsMap : ImportsMap) (key : string)
  (v : list ImportedSymbol) :
  lookup (assign importsMap key v) key = Some v.
Proof.
  induction importsMap as [|[k v'] rest IH]; simpl.
  - now rewrite String.eqb_refl.
  - destruct (k =? key) eqn:E; simpl; rewrite E; auto.
Qed.

Lemma lookup_assign_other (importsMap : ImportsMap) (key other : string)
  (v : list ImportedSymbol) :
  key <> other -> lookup (assign importsMap key v) other = lookup importsMap other.
Proof.
  intros Hne. induction importsMap as [|[k v'] rest IH]; simpl.
  - apply String.eqb_neq in Hne. now rewrite Hne.
  - destruct (k =? key) eqn:E; simpl.
    + apply String.eqb_eq in E. subst k.
      apply String.eqb_neq in Hne. now rewrite Hne.
    + destruct (k =? other); auto.
Qed.

Lemma keys_assign_incl (importsMap : ImportsMap) (key : string)
  (v : list ImportedSymbol) :
  incl (keys (assign importsMap key v)) (key :: keys importsMap).
Proof.
  unfold keys. induction importsMap as [|[k v'] rest IH]; simpl.
  - intros x [<-|[]]. now left.
  - destruct (k =? key) eqn:E; simpl.
    + intros x [<-|Hx]; right; simpl; auto.
    + intros x [<-|Hx]; [right; now left|].
      destruct (IH x Hx) as [<-|Hin]; [now left|right; now right].
Qed.

Lemma lookup_Some_key (importsMap : ImportsMap) (key : string)
  (v : list ImportedSymbol) :
  lookup importsMap key = Some v -> In key (keys importsMap).
Proof.
  unfold keys. induction importsMap as [|[k v'] rest IH]; simpl; [discriminate|].
  destruct (k =? key) eqn:E; intros H.
  - apply String.eqb_eq in E. now left.
  - right. auto.
Qed.

Lemma bucket_nonempty_key (importsMap : ImportsMap) (key : string)
  (sym : ImportedSymbol) :
  In sym (bucket importsMap key) -> In key (keys importsMap).
Proof.
  unfold bucket. destruct (lookup importsMap key) eqn:L.
  - intros _. eapply lookup_Some_key; eauto.
  - intros [].
Qed.

Lemma bucket_push_ensure (importsMap : ImportsMap) (key other : string)
  (sym : ImportedSymbol) :
  bucket (push (ensure importsMap key) key sym) other
  = if key =? other then (bucket importsMap key ++ [sym])%list
    else bucket importsMap other.
Proof.
  unfold push, bucket at 1.
  destruct (key =? other) eqn:E.
  - apply String.eqb_eq in E. subst other.
    rewrite lookup_assign_same. f_equal.
    unfold ensure, bucket.
    destruct (lookup importsMap key) eqn:L.
    + now rewrite L.
    + now rewrite lookup_assign_same.
  - apply String.eqb_neq in E.
    rewrite lookup_assign_other by assumption.
    unfold ensure, bucket.
    destruct (lookup importsMap key) eqn:L; [reflexivity|].
    now rewrite lookup_assign_other by assumption.
Qed.

Lemma keys_push_ensure (importsMap : ImportsMap) (key : string)
  (sym : ImportedSymbol) :
  incl (keys (push (ensure importsMap key) key sym)) (key :: keys importsMap).
Proof.
  unfold push. intros x Hx. apply keys_assign_incl in Hx.
  destruct Hx as [<-|Hx]; [now left|].
  unfold ensure in Hx. destruct (lookup importsMap key); [now right|].
  apply keys_assign_incl in Hx. exact Hx.
Qed.

(** ** Collecting the symbols of one statement *)

Lemma getIdentifiers_fold {S : Type} (namedBindings : Ts.NamedImportBindings)
  (onIdentifier : ImportedSymbol -> S -> S) (s : S) :
  getIdentifiers namedBindings onIdentifier s
  = fold_left (fun acc sym => onIdentifier sym acc)
      (flat_map childSymbols (Ts.forEachChild namedBindings)) s.
Proof.
  unfold getIdentifiers.
  generalize (Ts.forEachChild namedBindings) as children.
  intros children. revert s.
  induction children as [|child rest IH]; intros s; simpl; [reflexivity|].
  destruct child as [named|id]; simpl; apply IH.
Qed.

Lemma symbolsOf_children (namedBindings : Ts.NamedImportBindings) :
  symbolsOf namedBindings
  = flat_map childSymbols (Ts.forEachChild namedBindings).
Proof.
  unfold symbolsOf. rewrite getIdentifiers_fold.
  generalize (flat_map childSymbols (Ts.forEachChild namedBindings)) as syms.
  intros syms.
  assert (G : forall acc, fold_left (fun a sym => (a ++ [sym])%list) syms acc
                          = (acc ++ syms)%list).
  { induction syms as [|sym rest IH]; intros acc; simpl.
    - now rewrite app_nil_r.
    - rewrite IH, <- app_assoc. reflexivity. }
  apply (G []).
Qed.

Lemma symbolsOf_NamedImports (elements : list Ts.ImportSpecifier) :
  symbolsOf (Ts.NamedImports elements) = map specifierSymbol elements.
Proof.
  rewrite symbolsOf_children. simpl.
  induction elements as [|e rest IH]; simpl; [reflexivity|now rewrite IH].
Qed.

Lemma bucket_collectIdentifiers (packageName other : string)
  (namedBindings : Ts.NamedImportBindings) (importsMap : ImportsMap) :
  bucket (collectIdentifiers packageName namedBindings importsMap) other
  = if packageName =? other
    then (bucket importsMap other ++ symbolsOf namedBindings)%list
    else bucket importsMap other.
Proof.
  unfold collectIdentifiers.
  rewrite getIdentifiers_fold, symbolsOf_children.
  generalize (flat_map childSymbols (Ts.forEachChild namedBindings)) as syms.
  intros syms. revert importsMap.
  induction syms as [|sym rest IH]; intros importsMap; simpl.
  - destruct (packageName =? other); [now rewrite app_nil_r|reflexivity].
  - rewrite IH, bucket_push_ensure.
    destruct (packageName =? other) eqn:E; [|reflexivity].
    apply String.eqb_eq in E. subst other.
    now rewrite <- app_assoc.
Qed.

Lemma keys_collectIdentifiers (packageName : string)
  (namedBindings : Ts.NamedImportBindings) (importsMap : ImportsMap) :
  incl (keys (collectIdentifiers packageName namedBindings importsMap))
       (packageName :: keys importsMap).
Proof.
  unfold collectIdentifiers. rewrite getIdentifiers_fold.
  generalize (flat_map childSymbols (Ts.forEachChild namedBindings)) as syms.
  intros syms. revert importsMap.
  induction syms as [|sym rest IH]; intros importsMap; simpl.
  - apply incl_tl, incl_refl.
  - intros x Hx. apply IH in Hx. destruct Hx as [<-|Hx]; [now left|].
    now apply keys_push_ensure in Hx.
Qed.

(** ** The rule table *)

Lemma redirectImport_other (source target modulePath : string)
  (statement : Ts.Statement) (s : State) :
  (modulePath =? source) = false ->
  redirectImport source target modulePath statement s = Ok s.
Proof.
  intros E. unfold redirectImport. destruct s as [m rec]. now rewrite E.
Qed.

Lemma redirectAll_cons (rule : string * string) (rules : list (string * string))
  (modulePath : string) (statement : Ts.Statement) (s : State) :
  redirectAll (rule :: rules) modulePath statement s
  = s' <- redirectImport (fst rule) (snd rule) modulePath statement s ;;
    redirectAll rules modulePath statement s'.
Proof.
  unfold redirectAll. simpl.
  destruct (redirectImport (fst rule) (snd rule) modulePath statement s)
    as [s'|]; simpl; [reflexivity|].
  induction rules as [|r rest IH]; simpl; auto.
Qed.

Lemma redirectAll_noMatch (rules : list (string * string))
  (modulePath : string) (statement : Ts.Statement) (s : State) :
  findRule rules modulePath = None ->
  redirectAll rules modulePath statement s = Ok s.
Proof.
  induction rules as [|rule rest IH]; intros Hf; [reflexivity|].
  unfold findRule in Hf. simpl in Hf.
  destruct (modulePath =? fst rule) eqn:E; [discriminate|].
  rewrite redirectAll_cons, redirectImport_other by assumption.
  simpl. now apply IH.
Qed.

Lemma findRule_In (rules : list (string * string)) (modulePath : string)
  (rule : string * string) :
  findRule rules modulePath = Some rule ->
  In rule rules /\ fst rule = modulePath.
Proof.
  unfold findRule. intros H. apply find_some in H. destruct H as [Hin E].
  apply String.eqb_eq in E. auto.
Qed.

Lemma findRule_notIn (rules : list (string * string)) (modulePath : string) :
  ~ In modulePath (map fst rules) -> findRule rules modulePath = None.
Proof.
  intros Hn. destruct (findRule rules modulePath) as [rule|] eqn:F; [|reflexivity].
  apply findRule_In in F. destruct F as [Hin <-].
  exfalso. apply Hn. now apply in_map.
Qed.

(** Distinct sources: the sequence of calls acts as the one call of the
    first rule whose source is the module path. *)
Lemma redirectAll_find (rules : list (string * string)) (modulePath : string)
  (statement : Ts.Statement) (s : State) :
  NoDup (map fst rules) ->
  redirectAll rules modulePath statement s
  = match findRule rules modulePath with
    | Some rule => redirectImport (fst rule) (snd rule) modulePath statement s
    | None => Ok s
    end.
Proof.
  revert s. induction rules as [|rule rest IH]; intros s Hnd; [reflexivity|].
  simpl in Hnd. inversion Hnd as [|x l Hnotin Hnd']; subst.
  rewrite redirectAll_cons. unfold findRule. simpl.
  destruct (modulePath =? fst rule) eqn:E.
  - apply String.eqb_eq in E. subst modulePath.
    destruct (redirectImport (fst rule) (snd rule) (fst rule) statement s)
      as [s'|]; simpl; [|reflexivity].
    apply redirectAll_noMatch. now apply findRule_notIn.
  - rewrite redirectImport_other by assumption. simpl. now apply IH.
Qed.

Lemma redirects_NoDup : NoDup (map fst redirects).
Proof.
  apply (NoDup_count_occ' string_dec).
  intros x Hx. simpl in Hx.
  repeat (destruct Hx as [<-|Hx]; [reflexivity|]). destruct Hx.
Qed.

Lemma targetOf_In (modulePath target : string) :
  targetOf modulePath = Some target -> In (modulePath, target) redirects.
Proof.
  unfold targetOf. destruct (findRule redirects modulePath) as [rule|] eqn:F;
    simpl; [|discriminate].
  intros [= <-]. apply findRule_In in F. destruct F as [Hin <-].
  now destruct rule.
Qed.

Lemma targetOf_not_graphqlTag (modulePath target : string) :
  targetOf modulePath = Some target -> (modulePath =? "graphql-tag") = false.
Proof.
  intros H. apply targetOf_In in H.
  assert (A : forallb (fun rule => negb (fst rule =? "graphql-tag")) redirects
              = true) by reflexivity.
  rewrite forallb_forall in A. specialize (A _ H). simpl in A.
  now apply negb_true_iff in A.
Qed.

Lemma redirectGraphqlTag_other (modulePath : string)
  (statement : Ts.Statement) (s : State) :
  (modulePath =? "graphql-tag") = false ->
  redirectGraphqlTag modulePath statement s = Ok s.
Proof.
  intros E. unfold redirectGraphqlTag. destruct s as [m rec]. now rewrite E.
Qed.

Lemma visitStatement_step (statement : Ts.Statement) (s : State) :
  visitStatement statement s = step statement s.
Proof.
  unfold visitStatement, step, modulePathOf.
  destruct (Ts.kind statement) as [decl|]; [|reflexivity].
  destruct (Ts.moduleSpecifier decl) as [nodeText|other]; [|reflexivity].
  rewrite (redirectAll_find _ _ _ _ redirects_NoDup).
  destruct (targetOf (stripQuotes nodeText)) as [target|] eqn:T.
  - pose proof (targetOf_not_graphqlTag _ _ T) as G.
    unfold targetOf in T.
    destruct (findRule redirects (stripQuotes nodeText)) as [rule|] eqn:F;
      simpl in T; [|discriminate].
    injection T as <-. apply findRule_In in F. destruct F as [_ ->].
    destruct (redirectImport (stripQuotes nodeText) (snd rule)
                (stripQuotes nodeText) statement s) as [s'|]; simpl;
      [|reflexivity].
    now apply redirectGraphqlTag_other.
  - unfold targetOf in T.
    destruct (findRule redirects (stripQuotes nodeText)); [discriminate|].
    reflexivity.
Qed.

(** ** The effect of one statement, and of the scan *)

Lemma step_effect (statement : Ts.Statement) (m m' : ImportsMap)
  (rec rec' : Recorder) :
  step statement (m, rec) = Ok (m', rec') ->
  rec' = (rec ++ if matches statement then [removeOf statement] else [])%list
  /\ (forall k, bucket m' k = (bucket m k ++ contribution k statement)%list)
  /\ incl (keys m') (keys m ++ map snd redirects)%list.
Proof.
  unfold step, matches, contribution, isSource.
  destruct (modulePathOf statement) as [modulePath|].
  2:{ intros [= <- <-]. repeat split.
      - now rewrite app_nil_r.
      - intros k. now rewrite app_nil_r.
      - now apply incl_appl, incl_refl. }
  destruct (targetOf modulePath) as [target|] eqn:T.
  - unfold redirectImport. rewrite String.eqb_refl.
    destruct (Ts.importClauseOf statement) as [clause|]; [|discriminate].
    intros [= <- <-]. split; [reflexivity|].
    apply targetOf_In in T.
    assert (Ht : In target (map snd redirects))
      by (change target with (snd (modulePath, target)); now apply in_map).
    destruct (Ts.namedBindings clause) as [namedBindings|]; split.
    + intros k. rewrite bucket_collectIdentifiers.
      destruct (target =? k); [reflexivity|now rewrite app_nil_r].
    + intros x Hx. apply keys_collectIdentifiers in Hx.
      apply in_or_app. destruct Hx as [<-|Hx]; auto.
    + intros k. destruct (target =? k); now rewrite app_nil_r.
    + now apply incl_appl, incl_refl.
  - unfold redirectGraphqlTag.
    destruct (modulePath =? "graphql-tag") eqn:G.
    2:{ intros [= <- <-]. simpl. repeat split.
        - now rewrite app_nil_r.
        - intros k. now rewrite app_nil_r.
        - now apply incl_appl, incl_refl. }
    destruct (Ts.importClauseOf statement) as [clause|]; [|discriminate].
    destruct (Ts.clauseName clause) as [id|]; [|discriminate].
    intros [= <- <-]. split; [reflexivity|]. split.
    + intros k. rewrite bucket_push_ensure. cbn [andb].
      destruct ("apollo-angular" =? k) eqn:E; [|now rewrite app_nil_r].
      apply String.eqb_eq in E. now subst k.
    + intros x Hx. apply keys_push_ensure in Hx. apply in_or_app.
      destruct Hx as [<-|Hx]; [right|now left].
      simpl. do 13 right. now left.
Qed.

Lemma scan_cons (statement : Ts.Statement) (rest : list Ts.Statement)
  (s : State) :
  scan (statement :: rest) s
  = s' <- visitStatement statement s ;; scan rest s'.
Proof.
  unfold scan. simpl.
  destruct (visitStatement statement s) as [s'|]; simpl; [reflexivity|].
  induction rest as [|st rest' IH]; simpl; auto.
Qed.

Lemma scan_app (before after : list Ts.Statement) (s : State) :
  scan (before ++ after) s = s' <- scan before s ;; scan after s'.
Proof.
  revert s. induction before as [|st rest IH]; intros s; [reflexivity|].
  simpl. rewrite !scan_cons.
  destruct (visitStatement st s) as [s'|]; simpl; [apply IH|reflexivity].
Qed.

Lemma scan_effect (statements : list Ts.Statement) (m m' : ImportsMap)
  (rec rec' : Recorder) :
  scan statements (m, rec) = Ok (m', rec') ->
  rec' = (rec ++ map removeOf (filter matches statements))%list
  /\ (forall k,
        bucket m' k = (bucket m k ++ flat_map (contribution k) statements)%list)
  /\ incl (keys m') (keys m ++ map snd redirects)%list.
Proof.
  revert m rec. induction statements as [|st rest IH]; intros m rec.
  - intros [= <- <-]. simpl. repeat split.
    + now rewrite app_nil_r.
    + intros k. now rewrite app_nil_r.
    + now apply incl_appl, incl_refl.
  - rewrite scan_cons, visitStatement_step.
    destruct (step st (m, rec)) as [[m1 rec1]|] eqn:S1; simpl; [|discriminate].
    intros H. apply step_effect in S1. destruct S1 as (R1 & B1 & K1).
    apply IH in H. destruct H as (R2 & B2 & K2). repeat split.
    + rewrite R2, R1, <- app_assoc. f_equal.
      destruct (matches st); reflexivity.
    + intros k. now rewrite B2, B1, <- app_assoc.
    + intros x Hx. apply K2 in Hx. apply in_app_or in Hx.
      destruct Hx as [Hx|Hx]; [now apply K1|apply in_or_app; now right].
Qed.

(** A statement that throws aborts the scan wherever it stands. *)
Lemma scan_throws (statements : list Ts.Statement) (statement : Ts.Statement)
  (s : State) :
  In statement statements ->
  (forall s', visitStatement statement s' = TypeError) ->
  scan statements s = TypeError.
Proof.
  intros Hin Hthrow. apply in_split in Hin. destruct Hin as (l1 & l2 & ->).
  rewrite scan_app. destruct (scan l1 s) as [s1|]; simpl; [|reflexivity].
  now rewrite scan_cons, Hthrow.
Qed.

Lemma scan_noMatch (statements : list Ts.Statement) (s : State) :
  forallb (fun statement => negb (matches statement)) statements = true ->
  scan statements s = Ok s.
Proof.
  revert s. induction statements as [|st rest IH]; intros s H; [reflexivity|].
  simpl in H. apply andb_true_iff in H. destruct H as [Hst Hrest].
  apply negb_true_iff in Hst.
  rewrite scan_cons, visitStatement_step.
  assert (E : step st s = Ok s).
  { unfold step. unfold matches, isSource in Hst.
    destruct (modulePathOf st) as [modulePath|]; [|reflexivity].
    destruct (targetOf modulePath); [discriminate|].
    now apply redirectGraphqlTag_other. }
  rewrite E. simpl. now apply IH.
Qed.

(** ** The inserted statements *)

Lemma insertImports_app (sourceStart : nat) (m : ImportsMap) (rec : Recorder) :
  insertImports sourceStart m rec
  = (rec ++ map (fun importSource =>
                   InsertLeft sourceStart
                     (importText importSource (bucket m importSource)))
              (keys m))%list.
Proof.
  unfold insertImports. generalize (keys m) as ks. intros ks. revert rec.
  induction ks as [|k rest IH]; intros rec; simpl.
  - now rewrite app_nil_r.
  - rewrite IH, <- app_assoc. reflexivity.
Qed.

Lemma removals_app (r1 r2 : Recorder) :
  removals (r1 ++ r2)%list = (removals r1 ++ removals r2)%list.
Proof. unfold removals. apply flat_map_app. Qed.

Lemma removals_inserts {A : Type} (f : A -> nat * string) (l : list A) :
  removals (map (fun a => InsertLeft (fst (f a)) (snd (f a))) l) = [].
Proof. induction l as [|a rest IH]; simpl; auto. Qed.

Lemma removals_removeOf (statements : list Ts.Statement) :
  removals (map removeOf statements) = map span statements.
Proof.
  induction statements as [|st rest IH]; simpl; [reflexivity|now rewrite IH].
Qed.

(** The whole file: what [migrateFile] returns when the scan completes. *)
Lemma migrateFile_Ok (sourceFile : Ts.SourceFile) (r : FileResult) :
  migrateFile sourceFile = Ok r ->
  scan (Ts.statements sourceFile) ([], []) = Ok (importsMap r,
     map removeOf (filter matches (Ts.statements sourceFile)))
  /\ recorder r
     = (map removeOf (filter matches (Ts.statements sourceFile))
        ++ map (fun importSource =>
                  InsertLeft (Ts.sourceStart sourceFile)
                    (importText importSource (bucket (importsMap r) importSource)))
             (keys (importsMap r)))%list
  /\ committed r = negb (List.length (keys (importsMap r)) =? 0)%nat.
Proof.
  unfold migrateFile.
  destruct (scan (Ts.statements sourceFile) ([], [])) as [[m rec]|] eqn:S;
    simpl; [|discriminate].
  intros [= <-]. simpl.
  pose proof (scan_effect _ _ _ _ _ S) as (R & _ & _). simpl in R. subst rec.
  repeat split. apply insertImports_app.
Qed.

(** * The claims *)

(** ** Alias of a named import *)

(** What the code does for one specifier [exported as local]: the symbol's
    alias is the exported name again, never the local binding. *)
Lemma specifier_alias_is_exported_name (exported local : Ts.Identifier) :
  Ts.escapedText exported <> Ts.escapedText local ->
  Ts.escapedText exported <> "" ->
  symbolsOf (Ts.NamedImports [Ts.mkImportSpecifier (Some exported) local])
  = [{| name := Ts.escapedText exported;
        alias := Some (Ts.escapedText exported) |}]
  /\ renderSymbol
       {| name := Ts.escapedText exported;
          alias := Some (Ts.escapedText exported) |}
     = Ts.escapedText exported ++ " as " ++ Ts.escapedText exported.
Proof.
  intros Hne Hnonempty. split.
  - rewrite symbolsOf_NamedImports. simpl. unfold specifierSymbol. simpl.
    apply String.eqb_neq in Hne. now rewrite Hne.
  - unfold renderSymbol. simpl.
    apply String.eqb_neq in Hnonempty. now rewrite Hnonempty.
Qed.

(** When the local binding is the exported name, no alias is recorded and
    the symbol renders as the bare name. *)
Lemma specifier_without_alias (propertyName : option Ts.Identifier)
  (local : Ts.Identifier) :
  match propertyName with
  | Some exported => Ts.escapedText exported = Ts.escapedText local
  | None => True
  end ->
  symbolsOf (Ts.NamedImports [Ts.mkImportSpecifier propertyName local])
  = [{| name := Ts.escapedText local; alias := None |}]
  /\ renderSymbol {| name := Ts.escapedText local; alias := None |}
     = Ts.escapedText local.
Proof.
  intros H. split; [|reflexivity].
  rewrite symbolsOf_NamedImports. simpl. unfold specifierSymbol. simpl.
  destruct propertyName as [exported|]; [rewrite H|]; now rewrite String.eqb_refl.
Qed.

(** C1 (the code departs from it): for
    [import {ApolloClient as Client} from 'apollo-client';] the local
    binding [Client] differs from the exported name, yet the emitted
    statement reads [ApolloClient as ApolloClient]: [getIdentifiers] stores
    the exported name as the alias, not the local binding. *)
Theorem alias_clause_repeats_exported_name :
  migrateFile aliasFile
  = Ok {| importsMap :=
            [("@apollo/client/core",
              [{| name := "ApolloClient"; alias := Some "ApolloClient" |}])];
          recorder :=
            [Remove 0 53;
             InsertLeft 0
               ("import {ApolloClient as ApolloClient} from '@apollo/client/core';"
                  ++ newline)];
          committed := true |}
  /\ visit "src/app.ts" aliasFile
     = Ok ("import {ApolloClient as ApolloClient} from '@apollo/client/core';"
             ++ newline ++ newline).
Proof. split; reflexivity. Qed.

(** ** Duplicates in a bucket *)





(** ** Removal of matched statements *)

Lemma removedAt_In (rec : Recorder) (index len i : nat) :
  In (Remove index len) rec -> index <= i < index + len ->
  removedAt rec i = true.
Proof.
  intros Hin [Hlo Hhi]. unfold removedAt. apply existsb_exists.
  exists (Remove index len). split; [assumption|].
  apply andb_true_iff. split; [now apply Nat.leb_le|now apply Nat.ltb_lt].
Qed.

(** Distinct spans stay distinct among the matched statements. *)
Lemma matched_spans_NoDup (statements : list Ts.Statement) :
  NoDup (map span statements) ->
  NoDup (map span (filter matches statements)).
Proof.
  intros Hnd. induction statements as [|statement rest IH]; simpl;
    [constructor|].
  simpl in Hnd. apply NoDup_cons_iff in Hnd. destruct Hnd as [Hfresh Hrest].
  destruct (matches statement); simpl; [|auto].
  apply NoDup_cons; [|auto].
  intros Hin. apply Hfresh.
  apply in_map_iff in Hin. destruct Hin as (other & Hspan & Hother).
  apply filter_In in Hother. rewrite <- Hspan. apply in_map. tauto.
Qed.

Lemma recorder_removals (sourceFile : Ts.SourceFile) (r : FileResult) :
  migrateFile sourceFile = Ok r ->
  removals (recorder r)
  = map span (filter matches (Ts.statements sourceFile)).
Proof.
  intros H. apply migrateFile_Ok in H. destruct H as (_ & R & _).
  rewrite R, removals_app, removals_removeOf.
  rewrite (removals_inserts
             (fun importSource =>
                (Ts.sourceStart sourceFile,
                 importText importSource (bucket (importsMap r) importSource)))).
  apply app_nil_r.
Qed.

Lemma matched_removeOf_recorded (sourceFile : Ts.SourceFile) (r : FileResult)
  (statement : Ts.Statement) :
  migrateFile sourceFile = Ok r ->
  In statement (Ts.statements sourceFile) -> matches statement = true ->
  In (removeOf statement) (recorder r).
Proof.
  intros H Hin Hm. apply migrateFile_Ok in H. destruct H as (_ & R & _).
  rewrite R. apply in_or_app. left. apply in_map. apply filter_In. auto.
Qed.

Lemma committed_iff (sourceFile : Ts.SourceFile) (r : FileResult) :
  migrateFile sourceFile = Ok r ->
  (committed r = true <-> importsMap r <> []).
Proof.
  intros H. apply migrateFile_Ok in H. destruct H as (_ & _ & C).
  rewrite C. unfold keys. destruct (importsMap r); simpl; split; intros;
    congruence.
Qed.

(** C4, as stated, fails: [import {} from 'apollo-client';] matches the rule
    for [apollo-client] and names no symbol; its removal is recorded, but no
    bucket exists at the end of the scan, the update is not committed, and
    the file still holds the statement. *)
Lemma empty_named_import_not_deleted :
  forallb matches (Ts.statements emptyNamedFile) = true
  /\ migrateFile emptyNamedFile
     = Ok {| importsMap := []; recorder := [Remove 0 31]; committed := false |}
  /\ visit "src/app.ts" emptyNamedFile = Ok (Ts.text emptyNamedFile).
Proof. repeat split. Qed.

(** C4 (amended): in a scan that completes, the recorder holds one removal
    per matched statement, whatever the number of symbols, in statement
    order; with statements at distinct spans, the span of a matched statement
    is removed exactly once. The removals reach the file only when the
    update is committed, which is when at least one bucket exists; then
    every character of a matched statement is deleted, otherwise the text
    stays as it was. *)
Theorem matched_statement_removed_once (sourceFile : Ts.SourceFile)
  (r : FileResult) :
  migrateFile sourceFile = Ok r ->
  removals (recorder r) = map span (filter matches (Ts.statements sourceFile))
  /\ (NoDup (map span (Ts.statements sourceFile)) ->
      forall statement,
        In statement (Ts.statements sourceFile) -> matches statement = true ->
        count_occ span_eq_dec (removals (recorder r)) (span statement) = 1)
  /\ (committed r = true <-> importsMap r <> [])
  /\ (committed r = true ->
      forall statement i,
        In statement (Ts.statements sourceFile) -> matches statement = true ->
        Ts.getStart statement <= i
          < Ts.getStart statement + Ts.getWidth statement ->
        removedAt (recorder r) i = true)
  /\ (committed r = false -> contentAfter sourceFile r = Ts.text sourceFile).
Proof.
  intros H. pose proof (recorder_removals _ _ H) as R.
  split; [exact R|]. split; [|split; [|split]].
  - intros Hnd statement Hin Hm. rewrite R.
    apply NoDup_count_occ'.
    + now apply matched_spans_NoDup.
    + apply in_map. apply filter_In. auto.
  - now apply (committed_iff sourceFile).
  - intros _ statement i Hin Hm Hi.
    apply (removedAt_In _ (Ts.getStart statement) (Ts.getWidth statement));
      [|assumption].
    now apply (matched_removeOf_recorded sourceFile).
  - intros C. unfold contentAfter. now rewrite C.
Qed.

(** ** Files without a matching import *)

Lemma migrateFile_noMatch (sourceFile : Ts.SourceFile) :
  forallb (fun statement => negb (matches statement))
    (Ts.statements sourceFile) = true ->
  migrateFile sourceFile = Ok nothingDone.
Proof.
  intros H. unfold migrateFile. now rewrite scan_noMatch.
Qed.

(** C5: a file none of whose statements is an import matching the mapping
    (the rule table or the [graphql-tag] rule) makes the recorder record
    nothing, creates no bucket, is not committed, and keeps its text. *)
Theorem no_match_no_write (path : string) (sourceFile : Ts.SourceFile) :
  forallb (fun statement => negb (matches statement))
    (Ts.statements sourceFile) = true ->
  migrateFile sourceFile
  = Ok {| importsMap := []; recorder := []; committed := false |}
  /\ visit path sourceFile = Ok (Ts.text sourceFile).
Proof.
  intros H. split; [now apply migrateFile_noMatch|].
  unfold visit. destruct (skipped path); [reflexivity|].
  now rewrite migrateFile_noMatch.
Qed.

Lemma matched_statement_removed_once_witness :
  removals (recorder defaultOnlyWithOtherResult)
  = map span (filter matches (Ts.statements defaultOnlyWithOtherFile))
  /\ (NoDup (map span (Ts.statements defaultOnlyWithOtherFile)) ->
      forall statement,
        In statement (Ts.statements defaultOnlyWithOtherFile) ->
        matches statement = true ->
        count_occ span_eq_dec (removals (recorder defaultOnlyWithOtherResult))
          (span statement) = 1)
  /\ (committed defaultOnlyWithOtherResult = true
      <-> importsMap defaultOnlyWithOtherResult <> [])
  /\ (committed defaultOnlyWithOtherResult = true ->
      forall statement i,
        In statement (Ts.statements defaultOnlyWithOtherFile) ->
        matches statement = true ->
        Ts.getStart statement <= i
          < Ts.getStart statement + Ts.getWidth statement ->
        removedAt (recorder defaultOnlyWithOtherResult) i = true)
  /\ (committed defaultOnlyWithOtherResult = false ->
      contentAfter defaultOnlyWithOtherFile defaultOnlyWithOtherResult
      = Ts.text defaultOnlyWithOtherFile).
Proof.
  apply (matched_statement_removed_once defaultOnlyWithOtherFile
           defaultOnlyWithOtherResult).
  reflexivity.
Defined.

Lemma no_match_no_write_witness :
  migrateFile unrelatedFile
  = Ok {| importsMap := []; recorder := []; committed := false |}
  /\ visit "src/app/service.ts" unrelatedFile = Ok (Ts.text unrelatedFile).
Proof.
  apply (no_match_no_write "src/app/service.ts" unrelatedFile).
  reflexivity.
Defined.

(** ** Imports without an import clause *)

(** Any matched import without an import clause makes the loop body throw:
    [redirectImport] and the [graphql-tag] branch both read a property of
    [statement.importClause]. *)
Lemma import_without_clause_throws (statement : Ts.Statement) (s : State) :
  matches statement = true ->
  Ts.importClauseOf statement = None ->
  visitStatement statement s = TypeError.
Proof.
  intros Hm Hc. rewrite visitStatement_step.
  unfold step. unfold matches, isSource in Hm.
  destruct (modulePathOf statement) as [modulePath|]; [|discriminate].
  destruct s as [m rec].
  destruct (targetOf modulePath) as [target|].
  - unfold redirectImport. now rewrite String.eqb_refl, Hc.
  - unfold redirectGraphqlTag. now rewrite Hm, Hc.
Qed.

(** C6 (the code departs from it): [import 'apollo-client';] matches the
    rule for [apollo-client], and processing it does not succeed:
    [redirectImport] reads [namedBindings] of the absent import clause, the
    loop body throws, and neither a deletion nor anything else results. *)
Theorem side_effect_import_throws :
  forallb matches (Ts.statements sideEffectFile) = true
  /\ map Ts.importClauseOf (Ts.statements sideEffectFile) = [None]
  /\ migrateFile sideEffectFile = TypeError
  /\ visit "src/app.ts" sideEffectFile = TypeError.
Proof. repeat split. Qed.

(** ** Module specifiers that are not string literals *)

(** C8: an import whose module specifier is not a string literal is passed
    over: the loop body returns the state it was given (no bucket touched,
    no removal recorded) and throws nothing, so the scan, and the whole
    file's result, are those of the file without the statement. *)
Theorem computed_specifier_ignored (start width : nat)
  (clause : option Ts.ImportClause) (specifierText : string) :
  (forall s,
      visitStatement (computedSpecifier start width clause specifierText) s
      = Ok s)
  /\ matches (computedSpecifier start width clause specifierText) = false
  /\ (forall before after s,
         scan (before
                 ++ computedSpecifier start width clause specifierText :: after)
           s
         = scan (before ++ after) s)
  /\ (forall text sourceStart before after,
         migrateFile
           (Ts.mkSourceFile text sourceStart
              (before
                 ++ computedSpecifier start width clause specifierText :: after))
         = migrateFile (Ts.mkSourceFile text sourceStart (before ++ after))).
Proof.
  assert (A : forall before after s,
             scan (before
                     ++ computedSpecifier start width clause specifierText
                     :: after) s
             = scan (before ++ after) s).
  { intros before after s. rewrite !scan_app.
    destruct (scan before s) as [s1|]; simpl; [|reflexivity].
    now rewrite scan_cons. }
  repeat split; try assumption.
  intros text sourceStart before after. unfold migrateFile. simpl.
  now rewrite A.
Qed.

(** ** The default import from [graphql-tag] *)

Lemma modulePathOf_graphqlTag_step (statement : Ts.Statement) (s : State) :
  modulePathOf statement = Some "graphql-tag" ->
  visitStatement statement s = redirectGraphqlTag "graphql-tag" statement s.
Proof.
  intros Hp. rewrite visitStatement_step. unfold step. now rewrite Hp.
Qed.

(** A default import from [graphql-tag] whose identifier has the escaped
    text [L] always goes through: the loop body records the statement's removal and pushes
    the symbol [gql] onto the [apollo-angular] bucket, with alias [L] exactly
    when [L] is not [gql]; the symbol renders as [gql] or [gql as L]. In
    every file whose scan completes the update is committed, the removal is
    in the recorder, and the inserted [apollo-angular] import holds the
    symbol. *)
Theorem graphqlTag_default_import (statement : Ts.Statement)
  (clause : Ts.ImportClause) (id : Ts.Identifier) :
  modulePathOf statement = Some "graphql-tag" ->
  Ts.importClauseOf statement = Some clause ->
  Ts.clauseName clause = Some id ->
  Ts.escapedText id <> "" ->
  let L := Ts.escapedText id in
  let sym := {| name := "gql";
                alias := if L =? "gql" then None else Some L |} in
  (forall m rec,
      visitStatement statement (m, rec)
      = Ok (push (ensure m "apollo-angular") "apollo-angular" sym,
            (rec ++ [Remove (Ts.getStart statement) (Ts.getWidth statement)])
              %list))
  /\ renderSymbol sym = (if L =? "gql" then "gql" else "gql as " ++ L)
  /\ (forall sourceFile r,
         In statement (Ts.statements sourceFile) ->
         migrateFile sourceFile = Ok r ->
         committed r = true
         /\ In (Remove (Ts.getStart statement) (Ts.getWidth statement))
              (recorder r)
         /\ In sym (bucket (importsMap r) "apollo-angular")
         /\ In (InsertLeft (Ts.sourceStart sourceFile)
                  (importText "apollo-angular"
                     (bucket (importsMap r) "apollo-angular")))
              (recorder r)).
Proof.
  intros Hp Hc Hn Hne L sym.
  assert (Hm : matches statement = true)
    by (unfold matches; now rewrite Hp).
  split; [|split].
  - intros m rec. rewrite modulePathOf_graphqlTag_step by assumption.
    unfold redirectGraphqlTag. rewrite Hc, Hn. reflexivity.
  - unfold renderSymbol, sym. destruct (L =? "gql") eqn:E; simpl.
    + reflexivity.
    + apply String.eqb_neq in Hne. fold L in Hne. now rewrite Hne.
  - intros sourceFile r Hin H.
    assert (Hsym : In sym (bucket (importsMap r) "apollo-angular")).
    { destruct (migrateFile_Ok _ _ H) as (S & _ & _).
      apply scan_effect in S. destruct S as (_ & B & _).
      rewrite B. simpl. apply in_flat_map. exists statement.
      split; [assumption|].
      unfold contribution. rewrite Hp. simpl. rewrite Hc, Hn. now left. }
    pose proof (bucket_nonempty_key _ _ _ Hsym) as Hkey.
    repeat split.
    + apply (committed_iff sourceFile); [assumption|].
      intros E. rewrite E in Hkey. destruct Hkey.
    + now apply (matched_removeOf_recorded sourceFile).
    + exact Hsym.
    + apply migrateFile_Ok in H. destruct H as (_ & R & _). rewrite R.
      apply in_or_app. right.
      apply (in_map
               (fun importSource =>
                  InsertLeft (Ts.sourceStart sourceFile)
                    (importText importSource
                       (bucket (importsMap r) importSource)))
               _ _ Hkey).
Qed.

Lemma graphqlTag_default_import_witness :
  let statement :=
    importDecl 0 32 (defaultClause "myGql") "'graphql-tag'" in
  let sym := {| name := "gql"; alias := Some "myGql" |} in
  (forall m rec,
      visitStatement statement (m, rec)
      = Ok (push (ensure m "apollo-angular") "apollo-angular" sym,
            (rec ++ [Remove 0 32])%list))
  /\ renderSymbol sym = "gql as myGql"
  /\ (forall sourceFile r,
         In statement (Ts.statements sourceFile) ->
         migrateFile sourceFile = Ok r ->
         committed r = true
         /\ In (Remove 0 32) (recorder r)
         /\ In sym (bucket (importsMap r) "apollo-angular")
         /\ In (InsertLeft (Ts.sourceStart sourceFile)
                  (importText "apollo-angular"
                     (bucket (importsMap r) "apollo-angular")))
              (recorder r)).
Proof.
  apply (graphqlTag_default_import
           (importDecl 0 32 (defaultClause "myGql") "'graphql-tag'")
           (Ts.mkImportClause (Some (ident "myGql")) None)
           (ident "myGql")); try reflexivity.
  simpl. discriminate.
Defined.

(** The two scenarios of a [graphql-tag] default import, run to the end. *)
Example gql_scenario :
  visit "src/app.ts" gqlFile
  = Ok ("import {gql} from 'apollo-angular';" ++ newline ++ newline).
Proof. reflexivity. Qed.

Example myGql_scenario :
  visit "src/app.ts" myGqlFile
  = Ok ("import {gql as myGql} from 'apollo-angular';" ++ newline ++ newline).
Proof. reflexivity. Qed.

(** The single default import from [graphql-tag], rewritten: the one
    inserted statement imports [gql], under the alias that is the escaped
    text of the local binding when that is not [gql]. *)
Lemma graphqlTag_single_import (sourceFile : Ts.SourceFile)
  (statement : Ts.Statement) (clause : Ts.ImportClause) (id : Ts.Identifier) :
  Ts.statements sourceFile = [statement] ->
  modulePathOf statement = Some "graphql-tag" ->
  Ts.importClauseOf statement = Some clause ->
  Ts.clauseName clause = Some id ->
  Ts.escapedText id <> "" ->
  migrateFile sourceFile
  = Ok {| importsMap :=
            [("apollo-angular",
              [{| name := "gql";
                  alias := if Ts.escapedText id =? "gql" then None
                           else Some (Ts.escapedText id) |}])];
          recorder :=
            [Remove (Ts.getStart statement) (Ts.getWidth statement);
             InsertLeft (Ts.sourceStart sourceFile)
               ("import {"
                  ++ (if Ts.escapedText id =? "gql" then "gql"
                      else "gql as " ++ Ts.escapedText id)
                  ++ "} from 'apollo-angular';" ++ newline)];
          committed := true |}.
Proof.
  intros Hs Hp Hc Hn Hne. unfold migrateFile. rewrite Hs.
  rewrite scan_cons, modulePathOf_graphqlTag_step by assumption.
  unfold redirectGraphqlTag. rewrite Hc, Hn. simpl.
  unfold insertImports, importText, bucket, renderSymbol. simpl.
  destruct (Ts.escapedText id =? "gql") eqn:E; simpl; [reflexivity|].
  apply String.eqb_neq in Hne. now rewrite Hne.
Qed.

(** C7 (the code departs from it): for [import __gql from 'graphql-tag';]
    the local binding is [__gql], which is not [gql], so the claim asks for
    the alias [__gql]. The code takes the alias from [escapedText], which
    holds [___gql] for this name, and emits [gql as ___gql]: a binding the
    file does not use. For a local binding [gql] it emits [{gql}] and for
    [myGql] it emits [{gql as myGql}], as the claim says
    ([graphqlTag_single_import], [gql_scenario], [myGql_scenario]). *)
Theorem graphqlTag_alias_is_escaped_text :
  map (fun statement =>
         option_map Ts.clauseName (Ts.importClauseOf statement))
    (Ts.statements underscoreGqlFile)
  = [Some (Some (identifierNamed "__gql"))]
  /\ Ts.escapedText (identifierNamed "__gql") = "___gql"
  /\ migrateFile underscoreGqlFile
     = Ok {| importsMap :=
               [("apollo-angular",
                 [{| name := "gql"; alias := Some "___gql" |}])];
             recorder :=
               [Remove 0 32;
                InsertLeft 0
                  ("import {gql as ___gql} from 'apollo-angular';" ++ newline)];
             committed := true |}
  /\ visit "src/app.ts" underscoreGqlFile
     = Ok ("import {gql as ___gql} from 'apollo-angular';"
             ++ newline ++ newline).
Proof. repeat split. Qed.

(** C10: for an import from [graphql-tag] with an import clause, the loop
    body returns a state exactly when the clause has a default binding.
    Without one (as in [import {gql} from 'graphql-tag';]) it throws while
    reading the name of the absent binding, in whatever state it starts, and
    [migrateFile] throws on every file that contains such a statement. *)
Theorem graphqlTag_needs_default_binding (statement : Ts.Statement)
  (clause : Ts.ImportClause) :
  modulePathOf statement = Some "graphql-tag" ->
  Ts.importClauseOf statement = Some clause ->
  (forall s,
      (exists s', visitStatement statement s = Ok s')
      <-> Ts.clauseName clause <> None)
  /\ (Ts.clauseName clause = None ->
      (forall s, visitStatement statement s = TypeError)
      /\ (forall sourceFile,
             In statement (Ts.statements sourceFile) ->
             migrateFile sourceFile = TypeError)).
Proof.
  intros Hp Hc.
  assert (A : forall s,
             visitStatement statement s
             = match Ts.clauseName clause with
               | Some id =>
                   Ok (push (ensure (fst s) "apollo-angular") "apollo-angular"
                         (gqlSymbol (Ts.escapedText id)),
                       (snd s ++ [removeOf statement])%list)
               | None => TypeError
               end).
  { intros [m rec]. rewrite modulePathOf_graphqlTag_step by assumption.
    unfold redirectGraphqlTag. rewrite Hc. simpl.
    destruct (Ts.clauseName clause); reflexivity. }
  split.
  - intros s. rewrite A. destruct (Ts.clauseName clause) as [id|]; split.
    + discriminate.
    + intros _. eexists. reflexivity.
    + intros [s' H]. discriminate.
    + intros H. now contradiction H.
  - intros Hn.
    assert (T : forall s, visitStatement statement s = TypeError)
      by (intros s; now rewrite A, Hn).
    split; [exact T|].
    intros sourceFile Hin. unfold migrateFile.
    now rewrite (scan_throws _ statement).
Qed.

Lemma graphqlTag_needs_default_binding_witness :
  let statement :=
    importDecl 0 32 (namedClause [spec "gql" "gql"]) "'graphql-tag'" in
  (forall s,
      (exists s', visitStatement statement s = Ok s')
      <-> @None Ts.Identifier <> None)
  /\ (@None Ts.Identifier = None ->
      (forall s, visitStatement statement s = TypeError)
      /\ (forall sourceFile,
             In statement (Ts.statements sourceFile) ->
             migrateFile sourceFile = TypeError)).
Proof.
  apply (graphqlTag_needs_default_binding
           (importDecl 0 32 (namedClause [spec "gql" "gql"]) "'graphql-tag'")
           (Ts.mkImportClause None
              (Some (Ts.NamedImports [spec "gql" "gql"]))));
    reflexivity.
Defined.

Example namedGql_scenario :
  migrateFile namedGqlFile = TypeError
  /\ visit "src/app.ts" namedGqlFile = TypeError.
Proof. split; reflexivity. Qed.

(** ** Default-only imports from a mapped module *)

(** C9, as stated, fails on a file that holds nothing else to migrate:
    for [import ApolloClient from 'apollo-client';] alone the removal is
    recorded, but no bucket exists, the update is not committed, and the
    statement and its binding stay in the file. *)
Lemma default_only_import_not_deleted :
  forallb matches (Ts.statements defaultOnlyFile) = true
  /\ migrateFile defaultOnlyFile
     = Ok {| importsMap := []; recorder := [Remove 0 41]; committed := false |}
  /\ visit "src/app.ts" defaultOnlyFile = Ok (Ts.text defaultOnlyFile).
Proof. repeat split. Qed.

(** C9 (amended): an import with only a default binding from a source
    module of the rule table makes the loop body record the statement's
    removal and leave every bucket as it was. In a file whose scan
    completes, the removal is in the recorder and the buckets are those of
    the file without the statement, so nothing is emitted for the binding.
    When the update is committed the statement's characters are deleted and
    the binding is gone; when no other statement created a bucket, nothing
    is committed and the text stays as it was. *)
Theorem default_only_import_dropped (statement : Ts.Statement)
  (modulePath target : string) (clause : Ts.ImportClause)
  (id : Ts.Identifier) :
  modulePathOf statement = Some modulePath ->
  targetOf modulePath = Some target ->
  Ts.importClauseOf statement = Some clause ->
  Ts.clauseName clause = Some id ->
  Ts.namedBindings clause = None ->
  (forall m rec,
      visitStatement statement (m, rec)
      = Ok (m,
            (rec ++ [Remove (Ts.getStart statement) (Ts.getWidth statement)])
              %list))
  /\ (forall k, contribution k statement = [])
  /\ (forall sourceFile r before after,
         Ts.statements sourceFile = (before ++ statement :: after)%list ->
         migrateFile sourceFile = Ok r ->
         In (Remove (Ts.getStart statement) (Ts.getWidth statement))
           (recorder r)
         /\ (forall k,
                bucket (importsMap r) k
                = flat_map (contribution k) (before ++ after))
         /\ (committed r = true ->
             forall i,
               Ts.getStart statement <= i
                 < Ts.getStart statement + Ts.getWidth statement ->
               removedAt (recorder r) i = true)
         /\ (committed r = false ->
             contentAfter sourceFile r = Ts.text sourceFile)).
Proof.
  intros Hp Ht Hc Hn Hb.
  assert (Hm : matches statement = true)
    by (unfold matches, isSource; now rewrite Hp, Ht).
  assert (Hk : forall k, contribution k statement = []).
  { intros k. unfold contribution. rewrite Hp, Ht, Hc, Hb.
    now destruct (target =? k). }
  split; [|split; [exact Hk|]].
  - intros m rec. rewrite visitStatement_step. unfold step.
    rewrite Hp, Ht. unfold redirectImport.
    now rewrite String.eqb_refl, Hc, Hb.
  - intros sourceFile r before after Hs H.
    assert (Hin : In statement (Ts.statements sourceFile))
      by (rewrite Hs; apply in_elt).
    pose proof (matched_removeOf_recorded _ _ _ H Hin Hm) as Hrem.
    split; [exact Hrem|]. split; [|split].
    + intros k. destruct (migrateFile_Ok _ _ H) as (S & _ & _).
      apply scan_effect in S. destruct S as (_ & B & _).
      rewrite B, Hs. simpl. rewrite !flat_map_app. simpl. now rewrite Hk.
    + intros _ i Hi.
      now apply (removedAt_In _ (Ts.getStart statement)
                   (Ts.getWidth statement)).
    + intros C. unfold contentAfter. now rewrite C.
Qed.

Lemma default_only_import_dropped_witness :
  let statement :=
    importDecl 0 41 (defaultClause "ApolloClient") "'apollo-client'" in
  (forall m rec,
      visitStatement statement (m, rec) = Ok (m, (rec ++ [Remove 0 41])%list))
  /\ (forall k, contribution k statement = [])
  /\ (forall sourceFile r before after,
         Ts.statements sourceFile = (before ++ statement :: after)%list ->
         migrateFile sourceFile = Ok r ->
         In (Remove 0 41) (recorder r)
         /\ (forall k,
                bucket (importsMap r) k
                = flat_map (contribution k) (before ++ after))
         /\ (committed r = true ->
             forall i, 0 <= i < 0 + 41 -> removedAt (recorder r) i = true)
         /\ (committed r = false ->
             contentAfter sourceFile r = Ts.text sourceFile)).
Proof.
  apply (default_only_import_dropped
           (importDecl 0 41 (defaultClause "ApolloClient") "'apollo-client'")
           "apollo-client" "@apollo/client/core"
           (Ts.mkImportClause (Some (ident "ApolloClient")) None)
           (ident "ApolloClient"));
    reflexivity.
Defined.

(** With another import to migrate the update is committed, and the
    default binding is gone from the text. *)
Example defaultOnlyWithOther_scenario :
  migrateFile defaultOnlyWithOtherFile = Ok defaultOnlyWithOtherResult
  /\ visit "src/app.ts" defaultOnlyWithOtherFile
     = Ok ("import {ApolloLink} from '@apollo/client/core';"
             ++ newline ++ newline ++ newline).
Proof. split; reflexivity. Qed.

(** ** A second run *)





(** * Further properties of the import migration *)

(** ** The keys of the symbol map *)

Lemma lookup_None_key (m : ImportsMap) (key : string) :
  lookup m key = None -> ~ In key (keys m).
Proof.
  unfold keys. induction m as [|[k v] rest IH]; simpl; [tauto|].
  destruct (k =? key) eqn:E; [discriminate|].
  apply String.eqb_neq in E. intros L [H|H]; [contradiction|].
  now apply IH.
Qed.

Lemma keys_assign_old (m : ImportsMap) (key : string)
  (v : list ImportedSymbol) :
  In key (keys m) -> keys (assign m key v) = keys m.
Proof.
  unfold keys. induction m as [|[k v'] rest IH]; simpl; [tauto|].
  destruct (k =? key) eqn:E; simpl; [reflexivity|].
  apply String.eqb_neq in E. intros [H|H]; [contradiction|].
  now rewrite IH.
Qed.

Lemma keys_assign_new (m : ImportsMap) (key : string)
  (v : list ImportedSymbol) :
  ~ In key (keys m) -> keys (assign m key v) = (keys m ++ [key])%list.
Proof.
  unfold keys. induction m as [|[k v'] rest IH]; simpl; [reflexivity|].
  intros Hn. destruct (k =? key) eqn:E; simpl.
  - apply String.eqb_eq in E. tauto.
  - rewrite IH; tauto.
Qed.

Lemma keys_push_ensure_extend (m : ImportsMap) (key : string)
  (sym : ImportedSymbol) :
  keys (push (ensure m key) key sym) = extend (keys m) key.
Proof.
  unfold push, ensure, extend.
  destruct (lookup m key) as [v|] eqn:L.
  - pose proof (lookup_Some_key _ _ _ L) as Hin.
    rewrite keys_assign_old by assumption.
    now destruct (in_dec string_dec key (keys m)).
  - pose proof (lookup_None_key _ _ L) as Hn.
    rewrite keys_assign_old.
    + rewrite keys_assign_new by assumption.
      now destruct (in_dec string_dec key (keys m)).
    + rewrite keys_assign_new by assumption.
      apply in_or_app. right. now left.
Qed.

Lemma extend_again (ks : list string) (k : string) :
  extend (extend ks k) k = extend ks k.
Proof.
  assert (A : forall l, In k l -> extend l k = l).
  { intros l Hin. unfold extend. now destruct (in_dec string_dec k l). }
  apply A. unfold extend. destruct (in_dec string_dec k ks) as [Hin|Hn];
    [assumption|].
  apply in_or_app. right. now left.
Qed.

Lemma keys_collectIdentifiers_extend (packageName : string)
  (namedBindings : Ts.NamedImportBindings) (m : ImportsMap) :
  keys (collectIdentifiers packageName namedBindings m)
  = match symbolsOf namedBindings with
    | [] => keys m
    | _ :: _ => extend (keys m) packageName
    end.
Proof.
  unfold collectIdentifiers.
  rewrite getIdentifiers_fold, symbolsOf_children.
  generalize (flat_map childSymbols (Ts.forEachChild namedBindings)) as syms.
  intros syms. revert m.
  induction syms as [|sym rest IH]; intros m; simpl; [reflexivity|].
  rewrite IH, keys_push_ensure_extend.
  destruct rest; [reflexivity|apply extend_again].
Qed.

Lemma step_keys (statement : Ts.Statement) (m m' : ImportsMap)
  (rec rec' : Recorder) :
  step statement (m, rec) = Ok (m', rec') ->
  keys m' = fold_left extend (destination statement) (keys m).
Proof.
  unfold step, destination, contribution.
  destruct (modulePathOf statement) as [modulePath|];
    [|now intros [= <- <-]].
  destruct (targetOf modulePath) as [target|] eqn:T.
  - unfold redirectImport. rewrite !String.eqb_refl.
    destruct (Ts.importClauseOf statement) as [clause|]; [|discriminate].
    intros [= <- <-].
    destruct (Ts.namedBindings clause) as [namedBindings|]; [|reflexivity].
    rewrite keys_collectIdentifiers_extend.
    now destruct (symbolsOf namedBindings).
  - unfold redirectGraphqlTag.
    destruct (modulePath =? "graphql-tag") eqn:G;
      [|now intros [= <- <-]].
    destruct (Ts.importClauseOf statement) as [clause|]; [|discriminate].
    destruct (Ts.clauseName clause) as [id|]; [|discriminate].
    intros [= <- <-]. rewrite keys_push_ensure_extend. reflexivity.
Qed.

Lemma scan_keys (statements : list Ts.Statement) (m m' : ImportsMap)
  (rec rec' : Recorder) :
  scan statements (m, rec) = Ok (m', rec') ->
  keys m' = fold_left extend (flat_map destination statements) (keys m).
Proof.
  revert m rec. induction statements as [|st rest IH]; intros m rec.
  - now intros [= <- <-].
  - rewrite scan_cons, visitStatement_step.
    destruct (step st (m, rec)) as [[m1 rec1]|] eqn:S1; simpl; [|discriminate].
    intros H. apply IH in H. apply step_keys in S1.
    now rewrite H, S1, fold_left_app.
Qed.

Lemma extend_NoDup (ks : list string) (k : string) :
  NoDup ks -> NoDup (extend ks k).
Proof.
  intros H. unfold extend. destruct (in_dec string_dec k ks) as [|Hn];
    [assumption|].
  apply NoDup_app; [assumption|repeat constructor; tauto|].
  intros x Hx [<-|[]]. exact (Hn Hx).
Qed.

Lemma fold_extend_NoDup (l ks : list string) :
  NoDup ks -> NoDup (fold_left extend l ks).
Proof.
  revert ks. induction l as [|k rest IH]; intros ks H; simpl; [assumption|].
  apply IH. now apply extend_NoDup.
Qed.

Lemma fold_extend_In (l ks : list string) (k : string) :
  In k (fold_left extend l ks) <-> In k ks \/ In k l.
Proof.
  revert ks. induction l as [|x rest IH]; intros ks; simpl; [tauto|].
  rewrite IH. unfold extend. destruct (in_dec string_dec x ks) as [Hin|Hn].
  - split; [tauto|]. intros [H|[<-|H]]; tauto.
  - rewrite in_app_iff. simpl. tauto.
Qed.

Lemma fold_extend_prefix (l ks : list string) :
  exists new, fold_left extend l ks = (ks ++ new)%list.
Proof.
  revert ks. induction l as [|x rest IH]; intros ks; simpl.
  - exists []. now rewrite app_nil_r.
  - destruct (IH (extend ks x)) as [new E]. rewrite E. unfold extend.
    destruct (in_dec string_dec x ks).
    + now exists new.
    + exists ([x] ++ new)%list. now rewrite app_assoc.
Qed.

Lemma destination_contributes (statement : Ts.Statement) (k : string) :
  In k (destination statement) -> contribution k statement <> [].
Proof.
  unfold destination. destruct (modulePathOf statement) as [modulePath|];
    [|intros []].
  destruct (contribution
              match targetOf modulePath with
              | Some target => target
              | None => "apollo-angular"
              end statement) eqn:C; [intros []|].
  intros [<-|[]]. now rewrite C.
Qed.

(** ** The inserted import statements *)

Lemma insertions_removeOf (statements : list Ts.Statement) :
  insertions (map removeOf statements) = [].
Proof. induction statements as [|st rest IH]; simpl; auto. Qed.

Lemma insertions_app (r1 r2 : Recorder) :
  insertions (r1 ++ r2)%list = (insertions r1 ++ insertions r2)%list.
Proof. unfold insertions. apply flat_map_app. Qed.

Lemma insertions_inserts {A : Type} (f : A -> nat * string) (l : list A) :
  insertions (map (fun a => InsertLeft (fst (f a)) (snd (f a))) l) = map f l.
Proof.
  induction l as [|a rest IH]; simpl; [reflexivity|].
  rewrite IH. now destruct (f a).
Qed.

Lemma migrateFile_keys (sourceFile : Ts.SourceFile) (r : FileResult) :
  migrateFile sourceFile = Ok r ->
  keys (importsMap r)
  = firstOccurrences (flat_map destination (Ts.statements sourceFile)).
Proof.
  intros H. destruct (migrateFile_Ok _ _ H) as (S & _ & _).
  apply scan_keys in S. exact S.
Qed.

Lemma migrateFile_bucket (sourceFile : Ts.SourceFile) (r : FileResult)
  (k : string) :
  migrateFile sourceFile = Ok r ->
  bucket (importsMap r) k
  = flat_map (contribution k) (Ts.statements sourceFile).
Proof.
  intros H. destruct (migrateFile_Ok _ _ H) as (S & _ & _).
  apply scan_effect in S. destruct S as (_ & B & _). now rewrite B.
Qed.

(** X1: the file gets one inserted import statement per destination
    module: the destinations are pairwise distinct, and the insertions are,
    in the order of the keys, the import text of each destination's bucket,
    all at the start of the file. *)
Theorem one_import_per_destination (sourceFile : Ts.SourceFile)
  (r : FileResult) :
  migrateFile sourceFile = Ok r ->
  NoDup (keys (importsMap r))
  /\ insertions (recorder r)
     = map (fun importSource =>
              (Ts.sourceStart sourceFile,
               importText importSource (bucket (importsMap r) importSource)))
         (keys (importsMap r)).
Proof.
  intros H. split.
  - rewrite (migrateFile_keys _ _ H). apply fold_extend_NoDup. constructor.
  - destruct (migrateFile_Ok _ _ H) as (_ & R & _).
    rewrite R, insertions_app, insertions_removeOf. simpl.
    apply (insertions_inserts
             (fun importSource =>
                (Ts.sourceStart sourceFile,
                 importText importSource
                   (bucket (importsMap r) importSource)))).
Qed.

Lemma one_import_per_destination_witness :
  NoDup (keys (importsMap defaultOnlyWithOtherResult))
  /\ insertions (recorder defaultOnlyWithOtherResult)
     = map (fun importSource =>
              (Ts.sourceStart defaultOnlyWithOtherFile,
               importText importSource
                 (bucket (importsMap defaultOnlyWithOtherResult) importSource)))
         (keys (importsMap defaultOnlyWithOtherResult)).
Proof.
  apply (one_import_per_destination defaultOnlyWithOtherFile
           defaultOnlyWithOtherResult).
  reflexivity.
Defined.

(** X2: no inserted import statement is empty or foreign: every key of the
    symbol map is a destination of the rule table and its bucket holds at
    least one symbol, so [import {} from ...] is never emitted. *)
Theorem no_empty_bucket (sourceFile : Ts.SourceFile) (r : FileResult)
  (importSource : string) :
  migrateFile sourceFile = Ok r ->
  In importSource (keys (importsMap r)) ->
  bucket (importsMap r) importSource <> []
  /\ In importSource (map snd redirects).
Proof.
  intros H Hin. split.
  - rewrite (migrateFile_keys _ _ H) in Hin.
    apply fold_extend_In in Hin. destruct Hin as [[]|Hin].
    apply in_flat_map in Hin. destruct Hin as (st & Hst & Hd).
    apply destination_contributes in Hd.
    rewrite (migrateFile_bucket _ _ _ H).
    intros E. apply Hd.
    assert (A : forall l,
               In st l -> flat_map (contribution importSource) l = [] ->
               contribution importSource st = []).
    { induction l as [|x rest IH]; simpl; [tauto|].
      intros [->|Hx] E'; apply app_eq_nil in E'; destruct E'; auto. }
    now apply (A (Ts.statements sourceFile)).
  - destruct (migrateFile_Ok _ _ H) as (S & _ & _).
    apply scan_effect in S. destruct S as (_ & _ & K). now apply K.
Qed.

Lemma no_empty_bucket_witness :
  bucket (importsMap cacheResult) "@apollo/client/core" <> []
  /\ In "@apollo/client/core" (map snd redirects).
Proof.
  apply (no_empty_bucket cacheFile cacheResult "@apollo/client/core").
  - reflexivity.
  - simpl. now left.
Defined.

(** X3: the destinations are emitted in the order in which the statements
    of the file first contribute a symbol to them. *)
Theorem imports_in_discovery_order (sourceFile : Ts.SourceFile)
  (r : FileResult) :
  migrateFile sourceFile = Ok r ->
  keys (importsMap r)
  = firstOccurrences (flat_map destination (Ts.statements sourceFile))
  /\ (forall before after m rec,
         Ts.statements sourceFile = (before ++ after)%list ->
         scan before ([], []) = Ok (m, rec) ->
         exists later, keys (importsMap r) = (keys m ++ later)%list).
Proof.
  intros H. split; [now apply migrateFile_keys|].
  intros before after m rec Hs Hb.
  rewrite (migrateFile_keys _ _ H), Hs, flat_map_app.
  unfold firstOccurrences. rewrite fold_left_app.
  apply scan_keys in Hb. simpl in Hb. rewrite <- Hb.
  apply fold_extend_prefix.
Qed.

Lemma imports_in_discovery_order_witness :
  keys (importsMap defaultOnlyWithOtherResult)
  = firstOccurrences
      (flat_map destination (Ts.statements defaultOnlyWithOtherFile))
  /\ (forall before after m rec,
         Ts.statements defaultOnlyWithOtherFile = (before ++ after)%list ->
         scan before ([], []) = Ok (m, rec) ->
         exists later,
           keys (importsMap defaultOnlyWithOtherResult)
           = (keys m ++ later)%list).
Proof.
  apply (imports_in_discovery_order defaultOnlyWithOtherFile
           defaultOnlyWithOtherResult).
  reflexivity.
Defined.

(** ** What is removed and what is kept *)


Lemma removedAt_app (r1 r2 : Recorder) (i : nat) :
  removedAt (r1 ++ r2)%list i = removedAt r1 i || removedAt r2 i.
Proof. unfold removedAt. apply existsb_app. Qed.

Lemma removedAt_inserts {A : Type} (f : A -> nat * string) (l : list A)
  (i : nat) :
  removedAt (map (fun a => InsertLeft (fst (f a)) (snd (f a))) l) i = false.
Proof. induction l as [|a rest IH]; simpl; auto. Qed.

(** X4: the recorder is asked to remove matched statements and nothing
    else: every call of [recorder.remove] the scan makes carries the start
    and the width of a statement of the file that a rule matches. *)
Theorem only_matched_statements_removed (sourceFile : Ts.SourceFile)
  (r : FileResult) (index len : nat) :
  migrateFile sourceFile = Ok r ->
  In (Remove index len) (recorder r) ->
  exists statement,
    In statement (Ts.statements sourceFile)
    /\ matches statement = true
    /\ Ts.getStart statement = index
    /\ Ts.getWidth statement = len.
Proof.
  intros H Hin. destruct (migrateFile_Ok _ _ H) as (_ & R & _).
  rewrite R in Hin. apply in_app_or in Hin. destruct Hin as [Hin|Hin].
  - apply in_map_iff in Hin. destruct Hin as (st & E & Hst).
    apply filter_In in Hst. destruct Hst as [Hst Hm].
    injection E as <- <-. now exists st.
  - apply in_map_iff in Hin. destruct Hin as (k & E & _). discriminate.
Qed.

Lemma only_matched_statements_removed_witness :
  exists statement,
    In statement (Ts.statements defaultOnlyWithOtherFile)
    /\ matches statement = true
    /\ Ts.getStart statement = 42
    /\ Ts.getWidth statement = 39.
Proof.
  apply (only_matched_statements_removed defaultOnlyWithOtherFile
           defaultOnlyWithOtherResult 42 39).
  - reflexivity.
  - simpl. tauto.
Defined.

Lemma insertedAt_removeOf (statements : list Ts.Statement) (i : nat) :
  insertedAt (map removeOf statements) i = "".
Proof. induction statements as [|st rest IH]; simpl; auto. Qed.

Lemma insertedAt_app (r1 r2 : Recorder) (i : nat) :
  insertedAt (r1 ++ r2)%list i = insertedAt r1 i ++ insertedAt r2 i.
Proof.
  induction r1 as [|e rest IH]; simpl; [reflexivity|].
  destruct e as [index len|index content]; [assumption|].
  destruct (index =? i)%nat; [|assumption].
  rewrite IH. clear IH.
  induction content as [|c content IHc]; simpl; [reflexivity|now rewrite IHc].
Qed.

Lemma insertedAt_inserts_at (index i : nat) (contents : list string) :
  insertedAt (map (InsertLeft index) contents) i
  = if (index =? i)%nat then String.concat "" contents else "".
Proof.
  induction contents as [|c rest IH]; simpl.
  - now destruct (index =? i)%nat.
  - rewrite IH. destruct (index =? i)%nat; [|reflexivity].
    destruct rest; simpl; [|reflexivity].
    clear IH. induction c as [|ch c IHc]; simpl; [reflexivity|now rewrite IHc].
Qed.

Lemma applyFrom_after_start (statements : list Ts.Statement)
  (contents : list string) (text : string) (i : nat) :
  applyFrom (map removeOf statements ++ map (InsertLeft 0) contents)%list
    (S i) text
  = applyFrom (map removeOf statements) (S i) text.
Proof.
  revert i. induction text as [|c rest IH]; intros i; simpl.
  - rewrite insertedAt_app, insertedAt_removeOf, insertedAt_inserts_at.
    reflexivity.
  - rewrite insertedAt_app, insertedAt_removeOf, insertedAt_inserts_at.
    simpl. rewrite removedAt_app.
    rewrite (removedAt_inserts (fun content => (0, content))), orb_false_r.
    now rewrite IH.
Qed.

(** X5: in a committed file whose first token is at offset 0, the new text
    is the inserted import statements, one per destination in key order,
    followed by the old text without the matched statements. *)
Theorem rewritten_text (sourceFile : Ts.SourceFile) (r : FileResult) :
  migrateFile sourceFile = Ok r ->
  committed r = true ->
  Ts.sourceStart sourceFile = 0 ->
  contentAfter sourceFile r
  = String.concat ""
      (map (fun importSource =>
              importText importSource (bucket (importsMap r) importSource))
         (keys (importsMap r)))
    ++ applyEdits
         (map removeOf (filter matches (Ts.statements sourceFile)))
         (Ts.text sourceFile).
Proof.
  intros H C Hstart. unfold contentAfter. rewrite C.
  destruct (migrateFile_Ok _ _ H) as (_ & R & _). rewrite R, Hstart.
  rewrite <- (map_map
                (fun importSource =>
                   importText importSource (bucket (importsMap r) importSource))
                (InsertLeft 0)).
  generalize (map (fun importSource =>
                     importText importSource
                       (bucket (importsMap r) importSource))
                (keys (importsMap r))) as contents.
  generalize (filter matches (Ts.statements sourceFile)) as matched.
  intros matched contents. unfold applyEdits.
  destruct (Ts.text sourceFile) as [|c rest]; simpl.
  - rewrite insertedAt_app, !insertedAt_removeOf, insertedAt_inserts_at.
    reflexivity.
  - rewrite insertedAt_app, !insertedAt_removeOf, insertedAt_inserts_at.
    simpl. rewrite removedAt_app.
    rewrite (removedAt_inserts (fun content => (0, content))), orb_false_r.
    now rewrite applyFrom_after_start.
Qed.

Lemma rewritten_text_witness :
  contentAfter defaultOnlyWithOtherFile defaultOnlyWithOtherResult
  = String.concat ""
      (map (fun importSource =>
              importText importSource
                (bucket (importsMap defaultOnlyWithOtherResult) importSource))
         (keys (importsMap defaultOnlyWithOtherResult)))
    ++ applyEdits
         (map removeOf
            (filter matches (Ts.statements defaultOnlyWithOtherFile)))
         (Ts.text defaultOnlyWithOtherFile).
Proof.
  apply (rewritten_text defaultOnlyWithOtherFile defaultOnlyWithOtherResult);
    reflexivity.
Defined.

(** ** Named, namespace and quoted imports *)

Lemma name_writtenSpecifier (written : option string * string) :
  name (specifierSymbol (writtenSpecifier written))
  = escapeLeadingUnderscores (writtenExportedName written).
Proof. now destruct written as [[propertyName|] local]. Qed.

(** X6: a matched import with named imports contributes one symbol per
    specifier, in order, and each of them is in the destination's bucket at
    the end of the scan. The symbol's name is the escaped text of the
    specifier's exported name: the exported name as written, unless that
    begins with two underscores; then the symbol carries one underscore
    more. *)
Theorem exported_names_kept (sourceFile : Ts.SourceFile) (r : FileResult)
  (statement : Ts.Statement) (modulePath target : string)
  (clause : Ts.ImportClause) (specifiers : list (option string * string)) :
  migrateFile sourceFile = Ok r ->
  In statement (Ts.statements sourceFile) ->
  modulePathOf statement = Some modulePath ->
  targetOf modulePath = Some target ->
  Ts.importClauseOf statement = Some clause ->
  Ts.namedBindings clause
  = Some (Ts.NamedImports (map writtenSpecifier specifiers)) ->
  map name (contribution target statement)
  = map (fun written => escapeLeadingUnderscores (writtenExportedName written))
      specifiers
  /\ (forall written,
         In written specifiers ->
         exists sym,
           In sym (bucket (importsMap r) target)
           /\ name sym
              = escapeLeadingUnderscores (writtenExportedName written)
           /\ (prefix "__" (writtenExportedName written) = false ->
               name sym = writtenExportedName written)
           /\ (prefix "__" (writtenExportedName written) = true ->
               name sym = "_" ++ writtenExportedName written)).
Proof.
  intros H Hin Hp Ht Hc Hb.
  assert (C : contribution target statement
              = map specifierSymbol (map writtenSpecifier specifiers)).
  { unfold contribution. rewrite Hp, Ht, String.eqb_refl, Hc, Hb.
    apply symbolsOf_NamedImports. }
  split.
  - rewrite C, !map_map. apply map_ext. intros written.
    apply name_writtenSpecifier.
  - intros written Hw. exists (specifierSymbol (writtenSpecifier written)).
    split; [|split; [apply name_writtenSpecifier|]].
    + rewrite (migrateFile_bucket _ _ _ H). apply in_flat_map.
      exists statement. split; [assumption|].
      rewrite C. now apply in_map, in_map.
    + rewrite name_writtenSpecifier. unfold escapeLeadingUnderscores.
      split; now intros ->.
Qed.

Lemma exported_names_kept_witness :
  map name
    (contribution "@apollo/client/core"
       (importDecl 0 53 (namedClause [spec "ApolloClient" "Client"])
          "'apollo-client'"))
  = map (fun written => escapeLeadingUnderscores (writtenExportedName written))
      [(Some "ApolloClient", "Client")]
  /\ (forall written,
         In written [(Some "ApolloClient", "Client")] ->
         exists sym,
           In sym
             (bucket
                [("@apollo/client/core",
                  [{| name := "ApolloClient";
                      alias := Some "ApolloClient" |}])]
                "@apollo/client/core")
           /\ name sym
              = escapeLeadingUnderscores (writtenExportedName written)
           /\ (prefix "__" (writtenExportedName written) = false ->
               name sym = writtenExportedName written)
           /\ (prefix "__" (writtenExportedName written) = true ->
               name sym = "_" ++ writtenExportedName written)).
Proof.
  apply (exported_names_kept aliasFile
           {| importsMap :=
                [("@apollo/client/core",
                  [{| name := "ApolloClient";
                      alias := Some "ApolloClient" |}])];
              recorder :=
                [Remove 0 53;
                 InsertLeft 0
                   ("import {ApolloClient as ApolloClient} from '@apollo/client/core';"
                      ++ newline)];
              committed := true |}
           (importDecl 0 53 (namedClause [spec "ApolloClient" "Client"])
              "'apollo-client'")
           "apollo-client" "@apollo/client/core"
           (Ts.mkImportClause None
              (Some (Ts.NamedImports [spec "ApolloClient" "Client"])))
           [(Some "ApolloClient", "Client")]);
    try reflexivity.
  simpl. now left.
Defined.

(** The name [__DEV__] of [import {__DEV__} from 'apollo-utilities';] is
    emitted with three leading underscores. *)
Example underscore_name_scenario :
  visit "src/app.ts"
    (oneLine "import {__DEV__} from 'apollo-utilities';"
       (namedClause [writtenSpecifier (None, "__DEV__")])
       "'apollo-utilities'")
  = Ok ("import {___DEV__} from '@apollo/client/utilities';"
          ++ newline ++ newline).
Proof. reflexivity. Qed.

(** X7: a namespace import ([import * as ns from ...]) from a source module
    of the rule table has its removal recorded and contributes nothing: the
    only child [forEachChild] visits is no import specifier, so the binding
    [ns] gets no replacement. *)
Theorem namespace_import_dropped (statement : Ts.Statement)
  (modulePath target : string) (clause : Ts.ImportClause)
  (nsName : Ts.Identifier) :
  modulePathOf statement = Some modulePath ->
  targetOf modulePath = Some target ->
  Ts.importClauseOf statement = Some clause ->
  Ts.namedBindings clause = Some (Ts.NamespaceImport nsName) ->
  (forall m rec,
      visitStatement statement (m, rec)
      = Ok (m,
            (rec ++ [Remove (Ts.getStart statement) (Ts.getWidth statement)])
              %list))
  /\ (forall k, contribution k statement = [])
  /\ destination statement = [].
Proof.
  intros Hp Ht Hc Hb.
  assert (Hk : forall k, contribution k statement = []).
  { intros k. unfold contribution. rewrite Hp, Ht, Hc, Hb.
    now destruct (target =? k). }
  split; [|split; [exact Hk|]].
  - intros m rec. rewrite visitStatement_step. unfold step.
    rewrite Hp, Ht. unfold redirectImport.
    now rewrite String.eqb_refl, Hc, Hb.
  - unfold destination. rewrite Hp, Ht. now rewrite Hk.
Qed.

Lemma namespace_import_dropped_witness :
  let statement :=
    importDecl 0 39
      (Some (Ts.mkImportClause None
               (Some (Ts.NamespaceImport (ident "apollo")))))
      "'apollo-client'" in
  (forall m rec,
      visitStatement statement (m, rec) = Ok (m, (rec ++ [Remove 0 39])%list))
  /\ (forall k, contribution k statement = [])
  /\ destination statement = [].
Proof.
  apply (namespace_import_dropped
           (importDecl 0 39
              (Some (Ts.mkImportClause None
                       (Some (Ts.NamespaceImport (ident "apollo")))))
              "'apollo-client'")
           "apollo-client" "@apollo/client/core"
           (Ts.mkImportClause None
              (Some (Ts.NamespaceImport (ident "apollo"))))
           (ident "apollo"));
    reflexivity.
Defined.

Lemma string_length_app (s t : string) :
  String.length (s ++ t) = String.length s + String.length t.
Proof. induction s as [|c s IH]; simpl; [reflexivity|now rewrite IH]. Qed.

Lemma substring_prefix (s t : string) :
  substring 0 (String.length s) (s ++ t) = s.
Proof.
  induction s as [|c s IH]; simpl.
  - now destruct t.
  - now rewrite IH.
Qed.

(** X8: the module path is the literal's text without its first and its
    last character, whichever quote characters they are; a text of fewer
    than two characters gives the empty path. No escape is interpreted. *)
Theorem stripQuotes_quoted (openQuote closeQuote : ascii) (inner : string) :
  stripQuotes (String openQuote (inner ++ String closeQuote "")) = inner
  /\ stripQuotes "" = ""
  /\ stripQuotes (String openQuote "") = "".
Proof.
  repeat split. unfold stripQuotes. cbn [String.length].
  rewrite string_length_app. cbn [String.length].
  replace (S (String.length inner + 1) - 2) with (String.length inner) by lia.
  cbn [substring]. apply substring_prefix.
Qed.

(** * JSON objects *)

Lemma getProp_setProp_same {V : Type} (o : Js.Obj V) (key : string) (v : V) :
  Js.getProp (Js.setProp o key v) key = Some v.
Proof.
  induction o as [|[k v'] rest IH]; simpl.
  - now rewrite String.eqb_refl.
  - destruct (k =? key) eqn:E; simpl; rewrite E; auto.
Qed.

Lemma getProp_setProp_other {V : Type} (o : Js.Obj V) (key other : string)
  (v : V) :
  key <> other -> Js.getProp (Js.setProp o key v) other = Js.getProp o other.
Proof.
  intros Hne. apply String.eqb_neq in Hne.
  induction o as [|[k v'] rest IH]; simpl.
  - now rewrite Hne.
  - destruct (k =? key) eqn:E; simpl.
    + apply String.eqb_eq in E. subst k. now rewrite Hne.
    + destruct (k =? other); auto.
Qed.

Lemma setProp_again {V : Type} (o : Js.Obj V) (key : string) (v : V) :
  Js.setProp (Js.setProp o key v) key v = Js.setProp o key v.
Proof.
  induction o as [|[k v'] rest IH]; simpl.
  - now rewrite String.eqb_refl.
  - destruct (k =? key) eqn:E; simpl; rewrite E; [reflexivity|].
    now rewrite IH.
Qed.

Lemma getProp_deleteProp {V : Type} (o : Js.Obj V) (key other : string) :
  Js.getProp (Js.deleteProp o key) other
  = if key =? other then None else Js.getProp o other.
Proof.
  unfold Js.deleteProp. induction o as [|[k v] rest IH]; simpl.
  - now destruct (key =? other).
  - destruct (k =? key) eqn:E; simpl.
    + apply String.eqb_eq in E. subst k. rewrite IH.
      now destruct (key =? other).
    + rewrite IH. destruct (k =? other) eqn:E'; [|reflexivity].
      apply String.eqb_eq in E'. subst other.
      rewrite String.eqb_sym in E. now rewrite E.
Qed.

(** * [migrateTsConfig] *)

(** X9: a [tsconfig.json] whose [compilerOptions] is an object is
    overwritten with [allowSyntheticDefaultImports] set to [true], every
    other compiler option and property as read, and nothing else is
    written; when its [compilerOptions] is falsy the same holds of
    [tsconfig.base.json]; when both are falsy nothing is written. *)
Theorem tsconfig_flag_set (getJsonFile : string -> option TsConfig) :
  (forall tsconfig options,
      getJsonFile "tsconfig.json" = Some tsconfig ->
      compilerOptions tsconfig = ObjectValue options ->
      migrateTsConfig getJsonFile
      = Some [overwrite "tsconfig.json"
                {| compilerOptions :=
                     ObjectValue
                       (Js.setProp options "allowSyntheticDefaultImports"
                          (Js.JBool true));
                   otherProps := otherProps tsconfig |}])
  /\ (forall tsconfig tsconfigBase options,
         getJsonFile "tsconfig.json" = Some tsconfig ->
         compilerOptions tsconfig = FalsyValue ->
         getJsonFile "tsconfig.base.json" = Some tsconfigBase ->
         compilerOptions tsconfigBase = ObjectValue options ->
         migrateTsConfig getJsonFile
         = Some [overwrite "tsconfig.base.json"
                   {| compilerOptions :=
                        ObjectValue
                          (Js.setProp options "allowSyntheticDefaultImports"
                             (Js.JBool true));
                      otherProps := otherProps tsconfigBase |}])
  /\ (forall tsconfig tsconfigBase,
         getJsonFile "tsconfig.json" = Some tsconfig ->
         compilerOptions tsconfig = FalsyValue ->
         getJsonFile "tsconfig.base.json" = Some tsconfigBase ->
         compilerOptions tsconfigBase = FalsyValue ->
         migrateTsConfig getJsonFile = Some [])
  /\ (forall options : Js.Obj Js.Json,
         Js.getProp
           (Js.setProp options "allowSyntheticDefaultImports" (Js.JBool true))
           "allowSyntheticDefaultImports" = Some (Js.JBool true)
         /\ forall key,
              key <> "allowSyntheticDefaultImports" ->
              Js.getProp
                (Js.setProp options "allowSyntheticDefaultImports"
                   (Js.JBool true)) key
              = Js.getProp options key).
Proof.
  unfold migrateTsConfig, ifCompilerOptions. repeat split.
  - intros tsconfig options G O. now rewrite G, O.
  - intros tsconfig base options G O GB OB. now rewrite G, O, GB, OB.
  - intros tsconfig base G O GB OB. now rewrite G, O, GB, OB.
  - apply getProp_setProp_same.
  - intros key Hne. apply getProp_setProp_other. congruence.
Qed.

Example tsconfig_flag_set_example :
  migrateTsConfig
    (fun path =>
       if path =? "tsconfig.json"
       then Some {| compilerOptions :=
                      ObjectValue [("strict", Js.JBool true)];
                    otherProps := [("compileOnSave", Js.JBool false)] |}
       else None)
  = Some [overwrite "tsconfig.json"
            {| compilerOptions :=
                 ObjectValue
                   [("strict", Js.JBool true);
                    ("allowSyntheticDefaultImports", Js.JBool true)];
               otherProps := [("compileOnSave", Js.JBool false)] |}].
Proof. reflexivity. Qed.

(** X10: when [migrateTsConfig] throws and when it does not. It throws
    when reading [tsconfig.json] throws, and when [compilerOptions] is a
    truthy value that is no object (the assignment throws). With a falsy
    [compilerOptions] in [tsconfig.json] it throws when either happens for
    [tsconfig.base.json]. With an object or an array as [compilerOptions]
    in [tsconfig.json] it returns, and the base file is not read, so it may
    be missing. *)
Theorem tsconfig_throws (getJsonFile : string -> option TsConfig) :
  (getJsonFile "tsconfig.json" = None -> migrateTsConfig getJsonFile = None)
  /\ (forall tsconfig value,
         getJsonFile "tsconfig.json" = Some tsconfig ->
         compilerOptions tsconfig = PrimitiveValue value ->
         migrateTsConfig getJsonFile = None)
  /\ (forall tsconfig,
         getJsonFile "tsconfig.json" = Some tsconfig ->
         compilerOptions tsconfig = FalsyValue ->
         getJsonFile "tsconfig.base.json" = None ->
         migrateTsConfig getJsonFile = None)
  /\ (forall tsconfig tsconfigBase value,
         getJsonFile "tsconfig.json" = Some tsconfig ->
         compilerOptions tsconfig = FalsyValue ->
         getJsonFile "tsconfig.base.json" = Some tsconfigBase ->
         compilerOptions tsconfigBase = PrimitiveValue value ->
         migrateTsConfig getJsonFile = None)
  /\ (forall tsconfig,
         getJsonFile "tsconfig.json" = Some tsconfig ->
         (exists options, compilerOptions tsconfig = ObjectValue options)
         \/ (exists items, compilerOptions tsconfig = ArrayValue items) ->
         exists content,
           migrateTsConfig getJsonFile
           = Some [overwrite "tsconfig.json" content]).
Proof.
  unfold migrateTsConfig, ifCompilerOptions. repeat split.
  - now intros ->.
  - intros tsconfig value G O. now rewrite G, O.
  - intros tsconfig G O GB. now rewrite G, O, GB.
  - intros tsconfig base value G O GB OB. now rewrite G, O, GB, OB.
  - intros tsconfig G [[options O]|[items O]]; rewrite G, O; simpl;
      eexists; reflexivity.
Qed.

Example tsconfig_throws_example :
  migrateTsConfig
    (fun path =>
       if path =? "tsconfig.json"
       then Some {| compilerOptions :=
                      PrimitiveValue (NonEmptyString "x" "");
                    otherProps := [] |}
       else Some {| compilerOptions := ObjectValue []; otherProps := [] |})
  = None.
Proof. reflexivity. Qed.

Lemma afterOverwrites_one (getJsonFile : string -> option TsConfig)
  (path : string) (content : TsConfig) (p : string) :
  afterOverwrites getJsonFile [overwrite path content] p
  = if p =? path then Some content else getJsonFile p.
Proof. reflexivity. Qed.

(** X11: a second run changes nothing: run on the tree the first run left,
    [migrateTsConfig] writes again the file it wrote, with the content it
    has, so every path reads as after the first run. *)
Theorem tsconfig_second_run (getJsonFile : string -> option TsConfig)
  (writes : list Overwrite) :
  migrateTsConfig getJsonFile = Some writes ->
  migrateTsConfig (afterOverwrites getJsonFile writes) = Some writes
  /\ (forall path,
         afterOverwrites (afterOverwrites getJsonFile writes) writes path
         = afterOverwrites getJsonFile writes path).
Proof.
  unfold migrateTsConfig, ifCompilerOptions.
  destruct (getJsonFile "tsconfig.json") as [tsconfig|] eqn:G; [|discriminate].
  destruct (compilerOptions tsconfig) as [|options|items|value] eqn:O;
    [|intros [= <-]; split..|discriminate].
  - destruct (getJsonFile "tsconfig.base.json") as [base|] eqn:GB;
      [|discriminate].
    destruct (compilerOptions base) as [|baseOptions|baseItems|baseValue]
      eqn:OB; [intros [= <-]|intros [= <-]; split..|discriminate].
    + simpl. rewrite G, O, GB, OB. auto.
    + rewrite !afterOverwrites_one. simpl. rewrite G, O. simpl.
      unfold allowSyntheticDefaultImports. simpl. now rewrite setProp_again.
    + intros path. rewrite !afterOverwrites_one.
      now destruct (path =? "tsconfig.base.json").
    + rewrite !afterOverwrites_one. simpl. now rewrite G, O, OB.
    + intros path. rewrite !afterOverwrites_one.
      now destruct (path =? "tsconfig.base.json").
  - rewrite afterOverwrites_one. simpl.
    unfold allowSyntheticDefaultImports. simpl. now rewrite setProp_again.
  - intros path. rewrite !afterOverwrites_one.
    now destruct (path =? "tsconfig.json").
  - rewrite afterOverwrites_one. simpl. now rewrite O.
  - intros path. rewrite !afterOverwrites_one.
    now destruct (path =? "tsconfig.json").
Qed.

Lemma tsconfig_second_run_witness :
  let base :=
    {| compilerOptions := ObjectValue [("target", Js.JString "es2015")];
       otherProps := [] |} in
  let getJsonFile :=
    fun path =>
      if path =? "tsconfig.json"
      then Some {| compilerOptions := FalsyValue;
                   otherProps := [("extends", Js.JString "./tsconfig.base.json")] |}
      else if path =? "tsconfig.base.json" then Some base else None in
  let writes :=
    [overwrite "tsconfig.base.json"
       {| compilerOptions :=
            ObjectValue [("target", Js.JString "es2015");
                         ("allowSyntheticDefaultImports", Js.JBool true)];
          otherProps := [] |}] in
  migrateTsConfig (afterOverwrites getJsonFile writes) = Some writes
  /\ (forall path,
         afterOverwrites (afterOverwrites getJsonFile writes) writes path
         = afterOverwrites getJsonFile writes path).
Proof.
  apply (tsconfig_second_run
           (fun path =>
              if path =? "tsconfig.json"
              then Some {| compilerOptions := FalsyValue;
                           otherProps :=
                             [("extends", Js.JString "./tsconfig.base.json")] |}
              else if path =? "tsconfig.base.json"
                   then Some {| compilerOptions :=
                                  ObjectValue [("target", Js.JString "es2015")];
                                otherProps := [] |}
                   else None)).
  reflexivity.
Defined.

(** * [migrateDependencies] *)

Lemma getProp_addDependencies (dependenciesMap deps : Js.Obj string)
  (key : string) :
  Js.getProp (addDependencies dependenciesMap deps) key
  = match lastBinding dependenciesMap key with
    | Some v => Some v
    | None => Js.getProp deps key
    end.
Proof.
  unfold addDependencies. revert deps.
  induction dependenciesMap as [|[d v] rest IH]; intros deps; simpl;
    [reflexivity|].
  rewrite IH. destruct (lastBinding rest key); [reflexivity|].
  destruct (d =? key) eqn:E.
  - apply String.eqb_eq in E. subst d. apply getProp_setProp_same.
  - apply String.eqb_neq in E. now apply getProp_setProp_other.
Qed.

Lemma devVersion_delete (devDeps : option (Js.Obj string))
  (packageName key : string) :
  devVersion (option_map (fun d => Js.deleteProp d packageName) devDeps) key
  = if packageName =? key then None else devVersion devDeps key.
Proof.
  destruct devDeps as [d|]; simpl.
  - apply getProp_deleteProp.
  - now destruct (packageName =? key).
Qed.

(** One round of the removal loop. *)
Lemma removePackage_effect (deps deps' : Js.Obj string)
  (devDeps devDeps' : option (Js.Obj string))
  (removed removed' : list string) (packageName : string) :
  removePackage (deps, devDeps, removed) packageName
  = (deps', devDeps', removed') ->
  (forall key,
      Js.getProp deps' key
      = if (packageName =? key) && truthy (Js.getProp deps packageName)
        then None else Js.getProp deps key)
  /\ (forall key,
         devVersion devDeps' key
         = if (packageName =? key) && truthy (devVersion devDeps packageName)
           then None else devVersion devDeps key)
  /\ (devDeps' = None <-> devDeps = None)
  /\ removed'
     = (removed
        ++ if truthy (Js.getProp deps packageName)
              || truthy (devVersion devDeps packageName)
           then [packageName] else [])%list.
Proof.
  unfold removePackage. intros [= <- <- <-]. repeat split.
  - intros key. destruct (truthy (Js.getProp deps packageName)).
    + rewrite getProp_deleteProp, andb_true_r. reflexivity.
    + now rewrite andb_false_r.
  - intros key. destruct (truthy (devVersion devDeps packageName)).
    + rewrite devVersion_delete, andb_true_r. reflexivity.
    + now rewrite andb_false_r.
  - destruct (truthy (devVersion devDeps packageName)); [|auto].
    now destruct devDeps.
  - destruct (truthy (devVersion devDeps packageName)); [|auto].
    now destruct devDeps.
  - destruct (truthy (Js.getProp deps packageName) ||
              truthy (devVersion devDeps packageName));
      [reflexivity|now rewrite app_nil_r].
Qed.

Lemma removePackages_effect (packages : list string)
  (deps deps' : Js.Obj string) (devDeps devDeps' : option (Js.Obj string))
  (removed removed' : list string) :
  removePackages packages (deps, devDeps, removed)
  = (deps', devDeps', removed') ->
  (forall key,
      Js.getProp deps' key
      = if existsb (String.eqb key) packages && truthy (Js.getProp deps key)
        then None else Js.getProp deps key)
  /\ (forall key,
         devVersion devDeps' key
         = if existsb (String.eqb key) packages
              && truthy (devVersion devDeps key)
           then None else devVersion devDeps key)
  /\ (devDeps' = None <-> devDeps = None)
  /\ (NoDup packages ->
      removed'
      = (removed
         ++ filter (fun packageName =>
                      truthy (Js.getProp deps packageName)
                      || truthy (devVersion devDeps packageName))
              packages)%list).
Proof.
  revert deps devDeps removed.
  induction packages as [|p rest IH]; intros deps devDeps removed.
  - intros [= <- <- <-]. repeat split; auto. intros _. now rewrite app_nil_r.
  - change (removePackages (p :: rest) (deps, devDeps, removed))
      with (removePackages rest (removePackage (deps, devDeps, removed) p)).
    destruct (removePackage (deps, devDeps, removed) p)
      as [[deps1 devDeps1] removed1] eqn:S1.
    intros H. apply removePackage_effect in S1.
    destruct S1 as (D1 & V1 & N1 & R1).
    apply IH in H. destruct H as (D2 & V2 & N2 & R2).
    split; [|split; [|split]].
    + intros key. rewrite D2, D1. cbn [existsb].
      rewrite (String.eqb_sym key p).
      destruct (p =? key) eqn:E; simpl.
      * apply String.eqb_eq in E. subst key.
        destruct (truthy (Js.getProp deps p)) eqn:T; simpl.
        -- now rewrite andb_false_r.
        -- now rewrite T, andb_false_r.
      * reflexivity.
    + intros key. rewrite V2, V1. cbn [existsb].
      rewrite (String.eqb_sym key p).
      destruct (p =? key) eqn:E; simpl.
      * apply String.eqb_eq in E. subst key.
        destruct (truthy (devVersion devDeps p)) eqn:T; simpl.
        -- now rewrite andb_false_r.
        -- now rewrite T, andb_false_r.
      * reflexivity.
    + rewrite N2. exact N1.
    + intros Hnd. apply NoDup_cons_iff in Hnd. destruct Hnd as [Hp Hrest].
      rewrite (R2 Hrest), R1, <- app_assoc. f_equal. simpl.
      assert (F : filter (fun packageName =>
                            truthy (Js.getProp deps1 packageName)
                            || truthy (devVersion devDeps1 packageName)) rest
                  = filter (fun packageName =>
                              truthy (Js.getProp deps packageName)
                              || truthy (devVersion devDeps packageName)) rest).
      { apply filter_ext_in. intros q Hq.
        assert (Hne : (p =? q) = false)
          by (apply String.eqb_neq; intros ->; contradiction).
        cbv beta. now rewrite D1, V1, Hne. }
      rewrite F.
      now destruct (truthy (Js.getProp deps p) || truthy (devVersion devDeps p)).
Qed.

Lemma packagesToRemove_NoDup : NoDup packagesToRemove.
Proof.
  apply (NoDup_count_occ' string_dec).
  intros x Hx. simpl in Hx.
  repeat (destruct Hx as [<-|Hx]; [reflexivity|]). destruct Hx.
Qed.

(** What [migrateDependencies] writes and logs, by package name. *)
Lemma migrateDependencies_effect (dependenciesMap : Js.Obj string)
  (packageJson : PackageJson) :
  let r := migrateDependencies dependenciesMap packageJson in
  (forall key,
      depVersion (written r) key
      = if isRemoved key
           && truthy (mergedVersion dependenciesMap packageJson key)
        then None else mergedVersion dependenciesMap packageJson key)
  /\ (forall key,
         devVersion (devDependencies (written r)) key
         = if isRemoved key
              && truthy (devVersion (devDependencies packageJson) key)
           then None else devVersion (devDependencies packageJson) key)
  /\ (devDependencies (written r) = None
      <-> devDependencies packageJson = None)
  /\ dependencies (written r) <> None
  /\ info r
     = map removedMessage
         (filter (fun packageName =>
                    truthy (mergedVersion dependenciesMap packageJson
                              packageName)
                    || truthy (devVersion (devDependencies packageJson)
                                 packageName))
            packagesToRemove).
Proof.
  unfold migrateDependencies.
  destruct (removePackages packagesToRemove
              (addDependencies dependenciesMap
                 match dependencies packageJson with
                 | Some d => d
                 | None => []
                 end,
               devDependencies packageJson, []))
    as [[deps' devDeps'] removed'] eqn:S.
  apply removePackages_effect in S. destruct S as (D & V & N & R).
  assert (M : forall key,
             Js.getProp
               (addDependencies dependenciesMap
                  match dependencies packageJson with
                  | Some d => d
                  | None => []
                  end) key
             = mergedVersion dependenciesMap packageJson key).
  { intros key. rewrite getProp_addDependencies.
    unfold mergedVersion, depVersion.
    now destruct (dependencies packageJson). }
  cbn zeta. cbn [written info dependencies devDependencies].
  split; [|split; [|split; [|split]]].
  - intros key. unfold depVersion at 1. cbn [dependencies].
    rewrite D, M. reflexivity.
  - exact V.
  - exact N.
  - discriminate.
  - rewrite (R packagesToRemove_NoDup). cbn [app]. f_equal.
    apply filter_ext. intros p. cbv beta. now rewrite M.
Qed.

Lemma isRemoved_In (packageName : string) :
  In packageName packagesToRemove -> isRemoved packageName = true.
Proof.
  intros H. unfold isRemoved. apply existsb_exists.
  exists packageName. split; [assumption|apply String.eqb_refl].
Qed.

(** X12: after the migration no package of [packagesToRemove] is left with
    a version, in [dependencies] or in [devDependencies]: its property is
    absent or was falsy (the empty string) before. *)
Theorem removed_packages_gone (dependenciesMap : Js.Obj string)
  (packageJson : PackageJson) (packageName : string) :
  In packageName packagesToRemove ->
  truthy
    (depVersion (written (migrateDependencies dependenciesMap packageJson))
       packageName) = false
  /\ truthy
       (devVersion
          (devDependencies
             (written (migrateDependencies dependenciesMap packageJson)))
          packageName) = false.
Proof.
  intros Hin. apply isRemoved_In in Hin.
  destruct (migrateDependencies_effect dependenciesMap packageJson)
    as (D & V & _).
  rewrite D, V, Hin. cbn [andb]. split.
  - now destruct (truthy (mergedVersion dependenciesMap packageJson
                            packageName)) eqn:T.
  - now destruct (truthy (devVersion (devDependencies packageJson)
                            packageName)) eqn:T.
Qed.

Lemma removed_packages_gone_witness :
  truthy
    (depVersion
       (written (migrateDependencies exampleDependenciesMap examplePackageJson))
       "apollo-client") = false
  /\ truthy
       (devVersion
          (devDependencies
             (written
                (migrateDependencies exampleDependenciesMap examplePackageJson)))
          "apollo-client") = false.
Proof.
  apply (removed_packages_gone exampleDependenciesMap examplePackageJson
           "apollo-client").
  simpl. tauto.
Defined.





(** X15: the log names, in the order of [packagesToRemove] and once each, the
    packages that had a non-empty version in [dependencies] (after the
    table was merged in) or in [devDependencies]; a package found in both
    is reported once. *)
Theorem removed_packages_logged (dependenciesMap : Js.Obj string)
  (packageJson : PackageJson) :
  info (migrateDependencies dependenciesMap packageJson)
  = map removedMessage
      (filter (fun packageName =>
                 truthy (mergedVersion dependenciesMap packageJson packageName)
                 || truthy (devVersion (devDependencies packageJson)
                              packageName))
         packagesToRemove)
  /\ NoDup
       (filter (fun packageName =>
                  truthy (mergedVersion dependenciesMap packageJson packageName)
                  || truthy (devVersion (devDependencies packageJson)
                               packageName))
          packagesToRemove).
Proof.
  split.
  - apply (migrateDependencies_effect dependenciesMap packageJson).
  - apply NoDup_filter, packagesToRemove_NoDup.
Qed.

Example example_migrateDependencies :
  migrateDependencies exampleDependenciesMap examplePackageJson
  = {| written :=
         {| dependencies :=
              Some [("@angular/core", "^10.0.0"); ("graphql", "^15.0.0");
                    ("apollo-angular", "^2.0.0"); ("@apollo/client", "^3.0.0")];
            devDependencies := Some [("typescript", "~4.0.0")] |};
       info :=
         ["Removed graphql-tag dependency"; "Removed apollo-client dependency";
          "Removed apollo-link dependency"] |}.
Proof. reflexivity. Qed.

(** X16: a second run leaves [package.json] as the first run wrote it:
    every package has the same entry in [dependencies] and in
    [devDependencies]; and the second run logs a removal only for packages
    that [dependenciesMap] itself lists with a non-empty version. *)
Theorem dependencies_second_run (dependenciesMap : Js.Obj string)
  (packageJson : PackageJson) :
  let first := migrateDependencies dependenciesMap packageJson in
  let second := migrateDependencies dependenciesMap (written first) in
  (forall packageName,
      depVersion (written second) packageName
      = depVersion (written first) packageName)
  /\ (forall packageName,
         devVersion (devDependencies (written second)) packageName
         = devVersion (devDependencies (written first)) packageName)
  /\ info second
     = map removedMessage
         (filter (fun packageName =>
                    truthy (lastBinding dependenciesMap packageName))
            packagesToRemove).
Proof.
  intros first second.
  destruct (migrateDependencies_effect dependenciesMap packageJson)
    as (D1 & V1 & _).
  destruct (migrateDependencies_effect dependenciesMap (written first))
    as (D2 & V2 & _ & _ & I2).
  fold first in D1, V1. fold second in D2, V2, I2.
  assert (M : forall p,
             mergedVersion dependenciesMap (written first) p
             = match lastBinding dependenciesMap p with
               | Some v => Some v
               | None => depVersion (written first) p
               end) by reflexivity.
  split; [|split].
  - intros p. rewrite D2, M, D1. unfold mergedVersion.
    destruct (lastBinding dependenciesMap p) as [v|]; [reflexivity|].
    destruct (isRemoved p); cbn [andb]; [|reflexivity].
    destruct (truthy (depVersion packageJson p)) eqn:T; cbn; [reflexivity|].
    now rewrite T.
  - intros p. rewrite V2, V1.
    destruct (isRemoved p); cbn [andb]; [|reflexivity].
    destruct (truthy (devVersion (devDependencies packageJson) p)) eqn:T;
      cbn; [reflexivity|]. now rewrite T.
  - rewrite I2. f_equal. apply filter_ext_in. intros p Hp. cbv beta.
    apply isRemoved_In in Hp.
    rewrite V1, M, D1, Hp. cbn [andb]. unfold mergedVersion.
    destruct (truthy (devVersion (devDependencies packageJson) p)) eqn:T;
      [|rewrite T]; cbn [truthy]; rewrite orb_false_r;
      (destruct (lastBinding dependenciesMap p) as [v|]; [reflexivity|]);
      (destruct (truthy (depVersion packageJson p)) eqn:T';
       [reflexivity|exact T']).
Qed.

(** * Which files are visited, and which are written *)

Lemma substring_from_start (n : nat) (s t : string) :
  substring 0 n s = t -> String.length t = n -> exists post, s = t ++ post.
Proof.
  revert s t. induction n as [|n IH]; intros s t E L.
  - destruct t; [|discriminate]. now exists s.
  - destruct s as [|c s]; simpl in E; [subst t; discriminate|].
    destruct t as [|c' t]; [discriminate|].
    injection E as <- E. injection L as L.
    destruct (IH s t E L) as [post ->]. now exists post.
Qed.

Lemma substring_occurrence (m : nat) (s t : string) :
  t <> "" -> substring m (String.length t) s = t ->
  exists pre post, s = pre ++ t ++ post /\ String.length pre = m.
Proof.
  intros Hne. revert m. induction s as [|c s IH]; intros m E.
  - exfalso. apply Hne. rewrite <- E.
    destruct m; simpl; [now destruct (String.length t)|reflexivity].
  - destruct m as [|m].
    + destruct (substring_from_start _ _ _ E eq_refl) as [post ->].
      now exists "", post.
    + simpl in E. destruct (IH m E) as (pre & post & -> & L).
      exists (String c pre), post. simpl. now rewrite L.
Qed.

Lemma substring_at_occurrence (pre t post : string) :
  substring (String.length pre) (String.length t) (pre ++ t ++ post) = t.
Proof.
  induction pre as [|c pre IH]; simpl; [apply substring_prefix|exact IH].
Qed.

Lemma includes_iff (needle path : string) :
  needle <> "" ->
  (includes needle path = true
   <-> exists pre post, path = pre ++ needle ++ post).
Proof.
  intros Hne. unfold includes.
  destruct (index 0 needle path) as [m|] eqn:I; split; try discriminate;
    try reflexivity.
  - intros _. apply index_correct1 in I.
    destruct (substring_occurrence _ _ _ Hne I) as (pre & post & E & _).
    now exists pre, post.
  - intros (pre & post & ->). exfalso.
    apply (index_correct3 0 (String.length pre) _ _ I Hne (Nat.le_0_l _)).
    apply substring_at_occurrence.
Qed.

Lemma endsWith_iff (suffix path : string) :
  suffix <> "" ->
  (endsWith suffix path = true <-> exists stem, path = stem ++ suffix).
Proof.
  intros Hne. unfold endsWith. rewrite andb_true_iff, Nat.leb_le, String.eqb_eq.
  split.
  - intros [Hlen E].
    destruct (substring_occurrence _ _ _ Hne E) as (pre & post & -> & L).
    rewrite !string_length_app in L.
    destruct post as [|c post]; [|simpl in L; lia].
    exists pre. f_equal. clear. induction suffix as [|c s IH]; simpl;
      [reflexivity|now rewrite IH].
  - intros [stem ->]. rewrite string_length_app. split; [lia|].
    replace (String.length stem + String.length suffix - String.length suffix)
      with (String.length stem) by lia.
    assert (A : suffix = suffix ++ "").
    { clear. induction suffix as [|c s IH]; simpl;
        [reflexivity|now rewrite <- IH]. }
    rewrite A at 2. rewrite substring_at_occurrence. reflexivity.
Qed.

(** X17: the migration looks at a file exactly when its path ends in [.ts]
    and holds [node_modules] nowhere, not even inside a longer name; every
    other file keeps its text, whatever its imports are. *)
Theorem skipped_iff (path : string) :
  (skipped path = false
   <-> (exists stem, path = stem ++ ".ts")
       /\ ~ (exists pre post, path = pre ++ "node_modules" ++ post))
  /\ (skipped path = true ->
      forall sourceFile, visit path sourceFile = Ok (Ts.text sourceFile)).
Proof.
  split.
  - unfold skipped. rewrite orb_false_iff, negb_false_iff.
    rewrite (endsWith_iff ".ts" path) by discriminate.
    rewrite <- (includes_iff "node_modules" path) by discriminate.
    rewrite not_true_iff_false. tauto.
  - intros H sourceFile. unfold visit. now rewrite H.
Qed.

(** X18: the update of a file is committed exactly when some statement
    contributes a symbol to some destination; matched statements that
    contribute none leave the file untouched. *)
Theorem committed_iff_contribution (sourceFile : Ts.SourceFile)
  (r : FileResult) :
  migrateFile sourceFile = Ok r ->
  (committed r = true
   <-> exists statement target,
         In statement (Ts.statements sourceFile)
         /\ contribution target statement <> []).
Proof.
  intros H. rewrite (committed_iff _ _ H). split.
  - intros Hne. destruct (importsMap r) as [|[k v] rest] eqn:E;
      [contradiction|].
    assert (Hk : In k (keys (importsMap r))) by (rewrite E; now left).
    rewrite (migrateFile_keys _ _ H) in Hk.
    apply fold_extend_In in Hk. destruct Hk as [[]|Hk].
    apply in_flat_map in Hk. destruct Hk as (st & Hst & Hd).
    exists st, k. split; [assumption|now apply destination_contributes].
  - intros (st & k & Hin & Hc) E.
    pose proof (migrateFile_bucket _ _ k H) as B.
    rewrite E in B. unfold bucket in B. simpl in B.
    apply Hc. symmetry in B.
    clear - B Hin. induction (Ts.statements sourceFile) as [|x rest IH];
      simpl in *; [contradiction|].
    apply app_eq_nil in B. destruct B as [B1 B2].
    destruct Hin as [->|Hin]; auto.
Qed.

Lemma committed_iff_contribution_witness :
  committed defaultOnlyWithOtherResult = true
  <-> exists statement target,
        In statement (Ts.statements defaultOnlyWithOtherFile)
        /\ contribution target statement <> [].
Proof.
  apply (committed_iff_contribution defaultOnlyWithOtherFile
           defaultOnlyWithOtherResult).
  reflexivity.
Defined.

(** * The second run *)

(** ** Strings *)








(** ** The kept text *)








(** ** The emitted statements *)






(** ** Running the migration on the rewritten file *)









(** The files written for the two examples, parsed again, are the ones
    built by [rewrittenFile]. *)
Example rewrittenFile_gqlFile :
  migrateFile gqlFile = Ok gqlResult
  /\ rewrittenFile gqlFile gqlResult = gqlFileRewritten.
Proof. split; reflexivity. Qed.

Example rewrittenFile_cacheFile :
  migrateFile cacheFile = Ok cacheResult
  /\ rewrittenFile cacheFile cacheResult = cacheFileRewritten.
Proof. split; reflexivity. Qed.


